(** * RadioPrompt: the single-select list prompt of [lib/prompts/radio.js]

    A shallow embedding of the prompt's selection and navigation state
    machine, of its renderer and of the session wiring, followed by the
    properties of the specification that were checked against it.

    JavaScript objects are mutable and shared: the [Choices] collection
    keeps two arrays, [choices] and [realChoices], that point to the same
    [Choice] objects.  The embedding keeps the objects in the [choices]
    array and represents [realChoices] as an array of references (indices
    into [choices]), so a write through [getChoice] is seen by every
    reader of [choices]. *)

From stdpp Require Import base list strings.
From Stdlib Require Import ZArith Lia Ascii String.

Local Open Scope string_scope.
Local Open Scope Z_scope.
Local Open Scope list_scope.

(** ** Strings *)

(** The line feed, written ['\n'] in the source. *)
Definition LF : ascii := "010"%char.
Definition nl : string := String LF "".

(** The escape character that starts an ANSI colour sequence. *)
Definition ESC : ascii := "027"%char.

(** The carriage return. *)
Definition CR : ascii := "013"%char.

(** [s.split('\n').length]: one more than the number of line feeds. *)
Fixpoint split_lines_length (s : string) : nat :=
  match s with
  | "" => 1%nat
  | String c s' =>
      if Ascii.eqb c LF then S (split_lines_length s') else split_lines_length s'
  end.

(** [s.replace(/\n$/, '')]: without the [m] flag, [$] matches only at the
    very end of the input, so one trailing line feed is removed. *)
Fixpoint replace_trailing_newline (s : string) : string :=
  match s with
  | "" => ""
  | String c s' =>
      match s' with
      | "" => if Ascii.eqb c LF then "" else s
      | _ => String c (replace_trailing_newline s')
      end
  end.

(** [arr.join(', ')] on an array of strings. *)
Fixpoint join (sep : string) (l : list string) : string :=
  match l with
  | [] => ""
  | [x] => x
  | x :: l' => x +:+ sep +:+ join sep l'
  end.

(** ** External collaborators: chalk and figures *)

Module chalk.
(** The styles as chalk applies them on a colour terminal (its
    [applyStyle]). *)

(** One style of a chain: the codes that open and close it. *)
Record Styler := mkStyler {
  open : string;
  close : string;
}.

Definition code (n : string) : string := String ESC ("[" +:+ n +:+ "m").

Definition style (on off : string) : Styler :=
  {| open := code on; close := code off |}.

(** [string.includes(c)] for one character. *)
Fixpoint includes (c : ascii) (s : string) : bool :=
  match s with
  | "" => false
  | String c' s' => if Ascii.eqb c' c then true else includes c s'
  end.

(** [stringReplaceAll(string, substring, replacer)]: every occurrence of
    [substring], found from left to right without overlap, is followed by
    [replacer]; [skip] characters of a found occurrence are still to be
    passed.  [substring] is a close code, never empty. *)
Fixpoint stringReplaceAll_from (substring replacer : string) (skip : nat)
    (s : string) : string :=
  match s with
  | "" => ""
  | String c s' =>
      match skip with
      | S k => stringReplaceAll_from substring replacer k s'
      | O =>
          if String.prefix substring s
          then substring +:+ replacer +:+
               stringReplaceAll_from substring replacer
                 (String.length substring - 1) s'
          else String c (stringReplaceAll_from substring replacer 0 s')
      end
  end.

Definition stringReplaceAll (s substring replacer : string) : string :=
  stringReplaceAll_from substring replacer 0 s.

(** [stringEncaseCRLFWithFirstIndex]: the styles are closed before every
    line feed (or carriage return and line feed) and opened again after
    it. *)
Fixpoint stringEncaseCRLF (s prefix postfix : string) : string :=
  match s with
  | "" => ""
  | String c s' =>
      if Ascii.eqb c LF then
        prefix +:+ nl +:+ postfix +:+ stringEncaseCRLF s' prefix postfix
      else if Ascii.eqb c CR then
        match s' with
        | String c' s'' =>
            if Ascii.eqb c' LF then
              prefix +:+ String CR nl +:+ postfix +:+
              stringEncaseCRLF s'' prefix postfix
            else String c (stringEncaseCRLF s' prefix postfix)
        | "" => String c ""
        end
      else String c (stringEncaseCRLF s' prefix postfix)
  end.

(** [applyStyle] for a chain of styles, the last applied first
    ([chalk.cyan.bold] is the chain [bold; cyan]): the empty string stays
    empty; inside a text that already carries escape codes every close
    code of the chain is followed by its open code; each line is wrapped
    on its own. *)
Definition applyStyle (chain : list Styler) (s : string) : string :=
  match s with
  | "" => ""
  | _ =>
      let openAll := fold_right (fun st acc => acc +:+ open st) "" chain in
      let closeAll := fold_right (fun st acc => close st +:+ acc) "" chain in
      let s :=
        if includes ESC s
        then fold_left (fun str st => stringReplaceAll str (close st) (open st))
                       chain s
        else s in
      let s :=
        if includes LF s then stringEncaseCRLF s closeAll openAll else s in
      openAll +:+ s +:+ closeAll
  end.

Definition cyan : string -> string := applyStyle [style "36" "39"].
Definition green : string -> string := applyStyle [style "32" "39"].
Definition red : string -> string := applyStyle [style "31" "39"].
Definition bold : string -> string := applyStyle [style "1" "22"].
Definition cyan_bold : string -> string :=
  applyStyle [style "1" "22"; style "36" "39"].
End chalk.

Module figures.
Definition pointer : string := "❯".
Definition radioOn : string := "◉".
Definition radioOff : string := "◯".
End figures.

(** ** Data model *)

(** An answer payload ([choice.value]); compared with [===] by
    [Array.prototype.indexOf]. *)
Inductive Value :=
| VUndefined
| VNumber (n : Z)
| VString (s : string).

#[global] Instance Value_eq_dec : EqDecision Value.
Proof. solve_decision. Defined.

(** [choice.disabled]: absent, a boolean, or a string giving the reason. *)
Inductive Disabled :=
| DUndefined
| DBool (b : bool)
| DString (reason : string).

(** JavaScript truthiness of [choice.disabled]: the empty string is falsy. *)
Definition truthy (d : Disabled) : bool :=
  match d with
  | DUndefined => false
  | DBool b => b
  | DString "" => false
  | DString _ => true
  end.

(** [choice.type === 'separator'] or not. *)
Inductive ChoiceType := separator | choice_item.

#[global] Instance ChoiceType_eq_dec : EqDecision ChoiceType.
Proof. solve_decision. Defined.

(** One entry of the list: a [Choice] or a [Separator] object, with the
    fields that radio.js reads and writes (the two classes are not under
    src).  A field the object does not carry reads [undefined] in the
    source; [checked] keeps that case ([None]), [line] is what the
    separator prints for itself and is only read on separators, and
    [name], [short] only matter on choices ([join] prints an undefined
    [short] as the empty string). *)
Record Choice := mkChoice {
  type : ChoiceType;
  line : string;
  name : string;
  value : Value;
  short : string;
  checked : option bool;
  disabled : Disabled;
}.

(** [Boolean(choice.checked)], also the test of [checked ? .. : ..]. *)
Definition isChecked (c : Choice) : bool :=
  match checked c with
  | Some b => b
  | None => false
  end.

(** [choice.checked = v]. *)
Definition set_checked (v : bool) (c : Choice) : Choice :=
  {| type := type c; line := line c; name := name c; value := value c;
     short := short c; checked := Some v; disabled := disabled c |}.

Definition isSeparator (c : Choice) : bool :=
  match type c with
  | separator => true
  | choice_item => false
  end.

(** ** The choice collection *)

Module Choices.

(** The rows that [realChoices] keeps: neither separators nor disabled. *)
Definition isReal (c : Choice) : bool :=
  negb (isSeparator c) && negb (truthy (disabled c)).

(** References (indices, counted from [i]) of the real rows of [l]. *)
Fixpoint real_refs (i : nat) (l : list Choice) : list nat :=
  match l with
  | [] => []
  | c :: l' => if isReal c then i :: real_refs (S i) l' else real_refs (S i) l'
  end.

(** [this.choices] holds the objects, [this.realChoices] references to
    some of them; [removeAll] of radio.js empties both.  The array methods
    that the collection hands on to [choices] ([forEach], [filter],
    [reduce], [indexOf]) are written on the list where they are called. *)
Record t := mk {
  choices : list Choice;
  realChoices : list nat;
}.

(** Modelled from the spec: the constructor of the [Choices] collection
    (lib/objects/choices.js is missing).  The list keeps insertion order
    and the navigable rows are those that are neither separators nor
    disabled ("Separators and disabled items are never checked and never
    receive pointer focus"); [renderChoices] counts with the same rule. *)
Definition new (l : list Choice) : t :=
  {| choices := l; realChoices := real_refs 0 l |}.

(** Modelled from the spec: [length], the number of rows. *)
Definition length (cs : t) : nat := List.length (choices cs).

(** Modelled from the spec: [realLength], the count of navigable rows. *)
Definition realLength (cs : t) : nat := List.length (realChoices cs).

(** Modelled from the spec: [getChoice(index) -> Choice | undefined], the
    lookup among the navigable rows.  It returns the object, that is its
    reference together with what it holds now; [None] is [undefined].
    A negative index is no array element. *)
Definition getChoice (cs : t) (selector : Z) : option (nat * Choice) :=
  if (0 <=? selector)%Z then
    r ← realChoices cs !! Z.to_nat selector;
    item ← choices cs !! r;
    Some (r, item)
  else None.

(** A write [item.f = v] through a reference obtained from [getChoice]. *)
Definition update (r : nat) (f : Choice -> Choice) (cs : t) : t :=
  {| choices := alter f r (choices cs); realChoices := realChoices cs |}.

(** [forEach] with a callback that assigns fields of each row. *)
Definition forEach_update (f : Choice -> Choice) (cs : t) : t :=
  {| choices := f <$> choices cs; realChoices := realChoices cs |}.

(** Modelled from the spec: [push], append and recompute the navigable
    rows ("full replacement (remove-all then bulk-append)"). *)
Definition push (v : Choice) (cs : t) : t := new (choices cs ++ [v]).

(** The collection is as its constructor and [push] leave it. *)
Definition wf (cs : t) : Prop := realChoices cs = real_refs 0 (choices cs).

End Choices.

(** ** The prompt object *)

(** [opt.default] as the caller gives it: absent, one value or an array;
    the constructor ends by setting it to [null]. *)
Inductive Default :=
| default_none
| default_value (v : Value)
| default_array (vs : list Value).

(** What [opt.validate] answers: [true], [false] or an error message. *)
Inductive Validation :=
| isValid_true
| isValid_false
| isValid_message (msg : string).

(** Modelled from the spec: what reaches the completion callback, "the
    selected answer value (or list of values) or the cancellation sentinel
    value"; the sentinel is [commonStrings.cancelString], whose file is
    missing. *)
Inductive Answer :=
| cancelString
| values (vs : list Value).

(** The [{ isValid, value }] object that the submit pipeline hands on. *)
Record SubmitState := mkState {
  isValid : Validation;
  state_value : Answer;
}.

(** Modelled from the spec: the two states of a session ([base.js] is
    missing); the source only tests [status === 'answered']. *)
Inductive Status := active | answered.

#[global] Instance Status_eq_dec : EqDecision Status.
Proof. solve_decision. Defined.

(** Calls into the collaborators, in the order they are made. *)
Inductive Effect :=
| screen_render (message bottomContent : string)
| screen_done
| cliCursor_hide
| cliCursor_show
| done (v : Answer).

(** Modelled from the spec: [paginate(fullText, focusLineIndex, pageSize)
    -> windowedText], the pagination collaborator. *)
Record Paginator := mkPaginator {
  paginate : string -> Z -> option Z -> string;
}.

(** [this.opt] after the normalisation of the base class. *)
Record Options := mkOptions {
  choices : Choices.t;
  default : Default;
  loop : option bool;
  pageSize : option Z;
  message : string;
  validate : list Value -> Validation;
  filter : list Value -> list Value;
}.

(** The fields of [this]; [selection] is [undefined] ([None]) until the
    first submit or cancel, and [trace] records the collaborator calls. *)
Record RadioPrompt := mkRadioPrompt {
  opt : Options;
  pointer : Z;
  selected : string;
  selection : option (list string);
  status : Status;
  dontShowHints : bool;
  firstRender : bool;
  paginator : Paginator;
  trace : list Effect;
}.

Definition set_opt_choices (cs : Choices.t) (o : Options) : Options :=
  {| choices := cs; default := default o; loop := loop o;
     pageSize := pageSize o; message := message o;
     validate := validate o; filter := filter o |}.

Definition set_default (d : Default) (o : Options) : Options :=
  {| choices := choices o; default := d; loop := loop o;
     pageSize := pageSize o; message := message o;
     validate := validate o; filter := filter o |}.

Definition set_opt (o : Options) (this : RadioPrompt) : RadioPrompt :=
  {| opt := o; pointer := pointer this; selected := selected this;
     selection := selection this; status := status this;
     dontShowHints := dontShowHints this; firstRender := firstRender this;
     paginator := paginator this; trace := trace this |}.

Definition set_choices (cs : Choices.t) (this : RadioPrompt) : RadioPrompt :=
  set_opt (set_opt_choices cs (opt this)) this.

Definition set_pointer (p : Z) (this : RadioPrompt) : RadioPrompt :=
  {| opt := opt this; pointer := p; selected := selected this;
     selection := selection this; status := status this;
     dontShowHints := dontShowHints this; firstRender := firstRender this;
     paginator := paginator this; trace := trace this |}.

Definition set_selected (l : string) (this : RadioPrompt) : RadioPrompt :=
  {| opt := opt this; pointer := pointer this; selected := l;
     selection := selection this; status := status this;
     dontShowHints := dontShowHints this; firstRender := firstRender this;
     paginator := paginator this; trace := trace this |}.

Definition set_selection (l : option (list string)) (this : RadioPrompt)
  : RadioPrompt :=
  {| opt := opt this; pointer := pointer this; selected := selected this;
     selection := l; status := status this;
     dontShowHints := dontShowHints this; firstRender := firstRender this;
     paginator := paginator this; trace := trace this |}.

Definition set_status (st : Status) (this : RadioPrompt) : RadioPrompt :=
  {| opt := opt this; pointer := pointer this; selected := selected this;
     selection := selection this; status := st;
     dontShowHints := dontShowHints this; firstRender := firstRender this;
     paginator := paginator this; trace := trace this |}.

Definition set_dontShowHints (b : bool) (this : RadioPrompt) : RadioPrompt :=
  {| opt := opt this; pointer := pointer this; selected := selected this;
     selection := selection this; status := status this;
     dontShowHints := b; firstRender := firstRender this;
     paginator := paginator this; trace := trace this |}.

Definition set_firstRender (b : bool) (this : RadioPrompt) : RadioPrompt :=
  {| opt := opt this; pointer := pointer this; selected := selected this;
     selection := selection this; status := status this;
     dontShowHints := dontShowHints this; firstRender := b;
     paginator := paginator this; trace := trace this |}.

Definition add_effect (e : Effect) (this : RadioPrompt) : RadioPrompt :=
  {| opt := opt this; pointer := pointer this; selected := selected this;
     selection := selection this; status := status this;
     dontShowHints := dontShowHints this; firstRender := firstRender this;
     paginator := paginator this; trace := trace this ++ [e] |}.

(** ** Methods run in a state and error monad

    A method reads and writes the fields of [this] and either returns or
    throws. *)

Inductive Error :=
| TypeError
| ParamError (param : string).

Inductive Result (A : Type) :=
| Returns (a : A)
| Throws (e : Error).
Arguments Returns {A} a.
Arguments Throws {A} e.

Definition M (A : Type) : Type := RadioPrompt -> Result (A * RadioPrompt).

#[global] Instance M_ret : MRet M := fun A a this => Returns (a, this).

#[global] Instance M_bind : MBind M := fun A B f m this =>
  match m this with
  | Returns (a, this') => f a this'
  | Throws e => Throws e
  end.

Definition get : M RadioPrompt := fun this => Returns (this, this).
Definition modify (f : RadioPrompt -> RadioPrompt) : M unit :=
  fun this => Returns (tt, f this).
Definition throw {A : Type} (e : Error) : M A := fun _ => Throws e.
Definition emit (e : Effect) : M unit := modify (add_effect e).

(** [for (let i = 0; i < n; i++) body(i)], written from row [i] with
    [n] rounds left: the bound of the loop of [clearAllChoices],
    [realLength], is not changed by its body. *)
Fixpoint for_loop (i n : nat) (body : Z -> M unit) : M unit :=
  match n with
  | O => mret tt
  | S n' => body (Z.of_nat i);; for_loop (S i) n' body
  end.

(** ** Navigation *)

Inductive Direction := up | down.

(** Modelled from the spec: [incrementListIndex(current, dir, opt)]
    (lib/utils/incrementListIndex.js is missing).  "Step the index by ±1,
    wrapping to the opposite end when loop is true and the boundary is
    crossed, clamping at the boundary when loop is false"; with no
    navigable row the pointer is returned unchanged.  The pointer counts
    navigable rows, as [getChoice(this.pointer)] and [renderChoices] read
    it, so no separator lies in its range. *)
Definition incrementListIndex (current : Z) (dir : Direction) (o : Options)
  : Z :=
  let len := Z.of_nat (Choices.realLength (choices o)) in
  let shouldLoop := match loop o with Some b => b | None => true end in
  if len =? 0 then current
  else match dir with
       | up =>
           if 0 <? current then current - 1
           else if shouldLoop then len - 1 else current
       | down =>
           if current <? len - 1 then current + 1
           else if shouldLoop then 0 else current
       end.

(** ** Selection *)

(** [setChoice(index)] *)
Definition setChoice (index : Z) : M unit :=
  this ← get;
  let item := Choices.getChoice (choices (opt this)) index in
  match item with
  | Some (r, item) =>
      modify (fun this =>
        set_choices (Choices.update r (set_checked true) (choices (opt this))) this);;
      modify (set_selected (name item))
  | None => mret tt
  end.

(** [clearChoice(index)] *)
Definition clearChoice (index : Z) : M unit :=
  this ← get;
  let item := Choices.getChoice (choices (opt this)) index in
  match item with
  | Some (r, item) =>
      modify (fun this =>
        set_choices (Choices.update r (set_checked false) (choices (opt this))) this);;
      this ← get;
      if String.eqb (selected this) (name item)
      then modify (set_selected "")
      else mret tt
  | None => mret tt
  end.

(** [clearAllChoices()] *)
Definition clearAllChoices : M unit :=
  this ← get;
  for_loop 0 (Choices.realLength (choices (opt this))) clearChoice;;
  modify (set_selected "").

(** [getPointed()] *)
Definition getPointed : M string :=
  this ← get;
  if (0 <? Z.of_nat (Choices.length (choices (opt this))))
  then match Choices.getChoice (choices (opt this)) (pointer this) with
       | Some (_, item) => mret (name item)
       | None => throw TypeError
       end
  else mret "".

(** [getSelected()] *)
Definition getSelected : M string :=
  this ← get; mret (selected this).

(** [getCurrentValue()] *)
Definition getCurrentValue : M (list Value) :=
  this ← get;
  let choices :=
    List.filter (fun choice => isChecked choice && negb (truthy (disabled choice)))
                (Choices.choices (choices (opt this))) in
  modify (set_selection (Some (short <$> choices)));;
  mret (value <$> choices).

(** ** Rendering *)

(** [getCheckbox(checked)] *)
Definition getCheckbox (checked : option bool) : string :=
  if (match checked with Some b => b | None => false end)
  then chalk.green figures.radioOn
  else figures.radioOff.

(** The text between the parentheses of a disabled row. *)
Definition disabledText (d : Disabled) : string :=
  match d with
  | DString reason => reason
  | _ => "Disabled"
  end.

(** What one call of the [forEach] callback of [renderChoices] appends to
    [output], and the new [separatorOffset]. *)
Definition renderChoice (pointer : Z) (choice : Choice) (i separatorOffset : nat)
  : string * nat :=
  if isSeparator choice then
    (" " +:+ line choice +:+ nl, S separatorOffset)
  else if truthy (disabled choice) then
    (" - " +:+ name choice +:+ " (" +:+ disabledText (disabled choice) +:+ ")" +:+ nl,
     S separatorOffset)
  else
    let line := getCheckbox (checked choice) +:+ " " +:+ name choice in
    if Z.of_nat i - Z.of_nat separatorOffset =? pointer
    then (chalk.cyan (figures.pointer +:+ line) +:+ nl, separatorOffset)
    else (" " +:+ line +:+ nl, separatorOffset).

(** The [forEach] of [renderChoices], from row [i] on. *)
Fixpoint renderChoices_forEach (pointer : Z) (l : list Choice)
    (i separatorOffset : nat) (output : string) : string :=
  match l with
  | [] => output
  | choice :: l' =>
      let '(row, separatorOffset') := renderChoice pointer choice i separatorOffset in
      renderChoices_forEach pointer l' (S i) separatorOffset' (output +:+ row)
  end.

(** [renderChoices(choices, pointer)] *)
Definition renderChoices (cs : Choices.t) (pointer : Z) : string :=
  replace_trailing_newline
    (renderChoices_forEach pointer (Choices.choices cs) 0 0 "").

(** Modelled from the spec: [getQuestion()], "the question text"
    ([base.js] is missing). *)
Definition getQuestion (this : RadioPrompt) : string := message (opt this).

Definition hints : string :=
  nl +:+ "(Press " +:+ chalk.cyan_bold "<space>" +:+ " to select, " +:+
  chalk.cyan_bold "<enter>" +:+ " to proceed, " +:+
  chalk.cyan_bold "<backspace>" +:+ " to go back, or" +:+
  " leave no selection and press " +:+ chalk.cyan_bold "<enter>" +:+
  " to go back)".

(** The [reduce] of [render] that counts the lines down to the row of the
    pointer; [name] is a string here, so a row takes the lines of its
    name. *)
Fixpoint countLines (l : list Choice) (i indexPosition acc : Z) : Z :=
  match l with
  | [] => acc
  | value :: l' =>
      countLines l' (i + 1) indexPosition
        (if indexPosition <? i then acc
         else if isSeparator value then acc + 1
         else acc + Z.of_nat (split_lines_length (name value)))
  end.

(** [this.opt.choices.indexOf(this.opt.choices.getChoice(this.pointer))]:
    the row of the referenced object, [-1] for [undefined]. *)
Definition indexPosition (cs : Choices.t) (pointer : Z) : Z :=
  match Choices.getChoice cs pointer with
  | Some (r, _) => Z.of_nat r
  | None => -1
  end.

(** The body of [render(error)] down to the two strings it hands to the
    screen; [None] stands for a call without argument and for [false],
    which the test [if (error)] treats alike, as it does the empty
    string. *)
Definition renderFrame (error : option string) : M (string * string) :=
  this ← get;
  let message := getQuestion this in
  let message :=
    if negb (dontShowHints this) then message +:+ hints else message in
  message ←
    match status this with
    | answered =>
        match selection this with
        | Some sel => mret (message +:+ chalk.cyan (join ", " sel))
        | None => throw TypeError
        end
    | active =>
        let choicesStr := renderChoices (choices (opt this)) (pointer this) in
        let indexPosition := indexPosition (choices (opt this)) (pointer this) in
        let realIndexPosition :=
          countLines (Choices.choices (choices (opt this))) 0 indexPosition 0 - 1 in
        mret (message +:+ nl +:+
              paginate (paginator this) choicesStr realIndexPosition
                       (pageSize (opt this)))
    end;
  let bottomContent :=
    match error with
    | Some (String c e) => chalk.red ">> " +:+ String c e
    | _ => ""
    end in
  mret (message, bottomContent).

(** [render(error)] *)
Definition render (error : option string) : M unit :=
  frame ← renderFrame error;
  emit (screen_render frame.1 frame.2).

(** ** Key handlers *)

(** [onEnd(state)]; [None] is a call without argument.  The test
    [!state || this.selection.length == 0] reads [this.selection] only
    when [state] is given. *)
Definition onEnd (state : option SubmitState) : M unit :=
  this ← get;
  cancel ←
    match state with
    | None => mret true
    | Some _ =>
        match selection this with
        | Some sel => mret (Nat.eqb (List.length sel) 0)
        | None => throw TypeError
        end
    end;
  value ←
    match state, cancel with
    | Some st, false => mret (state_value st)
    | _, _ => modify (set_selection (Some []));; mret cancelString
    end;
  modify (set_status answered);;
  modify (set_dontShowHints true);;
  render None;;
  emit screen_done;;
  emit cliCursor_show;;
  emit (done value).

(** [onError(state)], that is [render(state.isValid)]: [false] is no
    error for [render], a message is one, and [true], which the error
    stream never carries, is truthy and printed as the text [true]. *)
Definition onError (state : SubmitState) : M unit :=
  render (match isValid state with
          | isValid_true => Some "true"
          | isValid_false => None
          | isValid_message msg => Some msg
          end).

(** [onBackspaceKeyKey()] *)
Definition onBackspaceKeyKey : M unit := onEnd None.

(** [onUpKey()] *)
Definition onUpKey : M unit :=
  modify (fun this =>
    set_pointer (incrementListIndex (pointer this) up (opt this)) this);;
  render None.

(** [onDownKey()] *)
Definition onDownKey : M unit :=
  modify (fun this =>
    set_pointer (incrementListIndex (pointer this) down (opt this)) this);;
  render None.

(** [onNumberKey(input)] and [onAllKey()] have empty bodies. *)
Definition onNumberKey (input : Z) : M unit := mret tt.
Definition onAllKey : M unit := mret tt.

(** [onSpaceKey()] *)
Definition onSpaceKey : M unit :=
  clearAllChoices;;
  this ← get;
  setChoice (pointer this);;
  render None.

(** The callback of [onInverseKey]: [choice.checked = !choice.checked] on
    every row that is no separator. *)
Definition inverse (choice : Choice) : Choice :=
  if isSeparator choice then choice
  else set_checked (negb (isChecked choice)) choice.

(** [onInverseKey()] *)
Definition onInverseKey : M unit :=
  modify (fun this =>
    set_choices (Choices.forEach_update inverse (choices (opt this))) this);;
  render None.

(** ** Construction and replacement of the list *)

(** The question as the caller writes it; [q_choices] may be missing. *)
Record Question := mkQuestion {
  q_choices : option (list Choice);
  q_default : Default;
  q_loop : option bool;
  q_pageSize : option Z;
  q_message : string;
  q_validate : list Value -> Validation;
  q_filter : list Value -> list Value;
}.

(** [this.opt.default.indexOf(choice.value) >= 0] *)
Definition inDefault (vs : list Value) (choice : Choice) : bool :=
  bool_decide (value choice ∈ vs).

(** The callback of the constructor's [forEach]. *)
Definition checkDefault (vs : list Value) (choice : Choice) : Choice :=
  if inDefault vs choice then set_checked true choice else choice.

(** [new RadioPrompt(question, rl, answers)]; [newPaginator] stands for
    [new Paginator(this.screen, { isInfinite })]. *)
Definition constructor (newPaginator : bool -> Paginator) (q : Question)
  : Result RadioPrompt :=
  match q_choices q with
  | None => Throws (ParamError "choices")
  | Some l =>
      let cs := Choices.new l in
      let cs :=
        match q_default q with
        | default_array vs => Choices.forEach_update (checkDefault vs) cs
        | _ => cs
        end in
      let shouldLoop := match q_loop q with None => true | Some b => b end in
      Returns
        {| opt := {| choices := cs; default := default_none; loop := q_loop q;
                     pageSize := q_pageSize q; message := q_message q;
                     validate := q_validate q; filter := q_filter q |};
           pointer := 0; selected := ""; selection := None;
           status := active; dontShowHints := false; firstRender := true;
           paginator := newPaginator shouldLoop; trace := [] |}
  end.

(** [removeAll()]: both arrays are emptied in place. *)
Definition removeAll : M unit :=
  modify (set_choices {| Choices.choices := []; Choices.realChoices := [] |}).

(** [update(values, pointed, selected)] *)
Definition update (values : list Choice) (pointed selected : Z) : M unit :=
  removeAll;;
  modify (fun this =>
    set_choices (fold_left (fun cs v => Choices.push v cs) values
                           (choices (opt this))) this);;
  modify (set_pointer pointed);;
  (if selected =? -1 then mret tt else setChoice selected);;
  render None.

(** ** The session: events wired by [_run] *)

Module events.
Inductive t :=
| line
| normalizedUpKey
| normalizedDownKey
| spaceKey
| backspaceKey.
End events.

(** The prompt together with the state of the submit pipeline: [success]
    tells whether [validation.success] has emitted. *)
Record Session := mkSession {
  prompt : RadioPrompt;
  success : bool;
}.

(** [_run(cb)]: hide the cursor, render once. *)
Definition _run : M unit :=
  emit cliCursor_hide;;
  render None;;
  modify (set_firstRender false).

(** Modelled from the spec: the submit pipeline of [handleSubmitEvents]
    ([base.js] is missing): the current value is filtered and validated;
    a valid one ends the session through [onEnd], an invalid one keeps the
    session active and re-renders with the error. *)
Definition onLine : M bool :=
  value ← getCurrentValue;
  this ← get;
  let filteredValue := filter (opt this) value in
  let state := {| isValid := validate (opt this) filteredValue;
                  state_value := values filteredValue |} in
  match isValid state with
  | isValid_true => onEnd (Some state);; mret true
  | _ => onError state;; mret false
  end.

Definition run_handler (m : M unit) (ss : Session) : Result Session :=
  match m (prompt ss) with
  | Returns (_, this) => Returns {| prompt := this; success := success ss |}
  | Throws e => Throws e
  end.

(** One event; every subscription ends with [takeUntil(validation.success)]
    or [take(1)], so nothing is handled once the submit has succeeded. *)
Definition dispatch (e : events.t) (ss : Session) : Result Session :=
  if success ss then Returns ss
  else match e with
       | events.line =>
           match onLine (prompt ss) with
           | Returns (ok, this) => Returns {| prompt := this; success := ok |}
           | Throws e => Throws e
           end
       | events.normalizedUpKey => run_handler onUpKey ss
       | events.normalizedDownKey => run_handler onDownKey ss
       | events.spaceKey => run_handler onSpaceKey ss
       | events.backspaceKey => run_handler onBackspaceKeyKey ss
       end.

(** The answers handed to the completion callback so far. *)
Definition delivered (this : RadioPrompt) : list Answer :=
  omap (fun e => match e with done v => Some v | _ => None end) (trace this).

(** ** Predicates used in the statements *)

(** A state in which [render] finds what it reads: once answered, the
    selection has been assigned. *)
Definition renderable (this : RadioPrompt) : Prop :=
  status this = answered -> selection this <> None.

(** No row is both checked and not disabled: the filter of
    [getCurrentValue] keeps nothing. *)
Definition nothingChecked (this : RadioPrompt) : Prop :=
  Forall (fun choice => isChecked choice = false \/ truthy (disabled choice) = true)
         (Choices.choices (choices (opt this))).

(** Row [j] after every reference of [refs] has been cleared. *)
Definition clearedRow (refs : list nat) (j : nat) (choice : Choice) : Choice :=
  if bool_decide (j ∈ refs) then set_checked false choice else choice.

(** The number of navigable rows above row [m]. *)
Definition realBefore (l : list Choice) (m : nat) : nat :=
  List.length (List.filter Choices.isReal (take m l)).

(** The Selectable rows (neither separator nor disabled) that are
    checked. *)
Definition checkedSelectable (this : RadioPrompt) : list Choice :=
  List.filter (fun choice => Choices.isReal choice && isChecked choice)
              (Choices.choices (choices (opt this))).

(** A paginator that shows the whole text, used in examples. *)
Definition wholeText (isInfinite : bool) : Paginator :=
  {| paginate := fun output _ _ => output |}.

(** Modelled from the spec: an enabled row, a disabled row and a
    separator as the [Choice] and [Separator] constructors (not under src)
    leave them: a Selectable row has a name, a value and a short label,
    here all taken from the name, a Disabled row has its flag, a Separator
    only its line. *)
Definition row (n : string) : Choice :=
  {| type := choice_item; line := ""; name := n; value := VString n;
     short := n; checked := None; disabled := DUndefined |}.

Definition disabledRow (n : string) : Choice :=
  {| type := choice_item; line := ""; name := n; value := VString n;
     short := n; checked := None; disabled := DBool true |}.

Definition separatorRow (l : string) : Choice :=
  {| type := separator; line := l; name := ""; value := VUndefined;
     short := ""; checked := None; disabled := DUndefined |}.

(** A question over the given rows with the defaults of the base class:
    the validator accepts and the filter is the identity. *)
Definition question (rows : list Choice) (d : Default) : Question :=
  {| q_choices := Some rows; q_default := d; q_loop := None;
     q_pageSize := None; q_message := "Pick one";
     q_validate := fun _ => isValid_true; q_filter := fun vs => vs |}.

(** At most one Selectable row is checked. *)
Definition atMostOneChecked (this : RadioPrompt) : Prop :=
  (List.length (checkedSelectable this) <= 1)%nat.

(** The operations that keep the selection single: the space key, the
    arrow keys and the two clearing methods. *)
Inductive Operation :=
| op_space
| op_up
| op_down
| op_clearChoice (index : Z)
| op_clearAllChoices.

Definition perform (o : Operation) : M unit :=
  match o with
  | op_space => onSpaceKey
  | op_up => onUpKey
  | op_down => onDownKey
  | op_clearChoice index => clearChoice index
  | op_clearAllChoices => clearAllChoices
  end.

Fixpoint performAll (ops : list Operation) : M unit :=
  match ops with
  | [] => mret tt
  | o :: ops' => perform o;; performAll ops'
  end.

(** An active prompt over the given rows with the pointer at [p], before
    anything is rendered. *)
Definition promptOver (rows : list Choice) (p : Z) : RadioPrompt :=
  {| opt := {| choices := Choices.new rows; default := default_none;
               loop := None; pageSize := None; message := "Pick one";
               validate := fun _ => isValid_true; filter := fun vs => vs |};
     pointer := p; selected := ""; selection := None; status := active;
     dontShowHints := false; firstRender := false;
     paginator := wholeText true; trace := [] |}.

(** The text of one rendered row, marked with the pointer or not. *)
Definition renderedRow (choice : Choice) (pointed : bool) : string :=
  if isSeparator choice then " " +:+ line choice +:+ nl
  else if truthy (disabled choice) then
    " - " +:+ name choice +:+ " (" +:+ disabledText (disabled choice) +:+ ")" +:+ nl
  else if pointed then
    chalk.cyan (figures.pointer +:+ getCheckbox (checked choice) +:+ " " +:+ name choice)
    +:+ nl
  else " " +:+ (getCheckbox (checked choice) +:+ " " +:+ name choice) +:+ nl.

(** The pieces that the [forEach] of [renderChoices] appends to [output],
    one for each row. *)
Fixpoint renderChoices_rows (pointer : Z) (l : list Choice)
    (i separatorOffset : nat) : list string :=
  match l with
  | [] => []
  | choice :: l' =>
      let '(row, separatorOffset') := renderChoice pointer choice i separatorOffset in
      row :: renderChoices_rows pointer l' (S i) separatorOffset'
  end.

(** The rows put one after the other. *)
Fixpoint concatRows (rows : list string) : string :=
  match rows with
  | [] => ""
  | r :: rows' => r +:+ concatRows rows'
  end.

(** What a method returns, without the state it leaves. *)
Definition result_value {A : Type} (r : Result (A * RadioPrompt)) : Result A :=
  match r with
  | Returns (a, _) => Returns a
  | Throws e => Throws e
  end.

(** ** Further notions used in the statements *)

(** The rows that [getCurrentValue] keeps: checked and not disabled. *)
Definition checkedEnabled (this : RadioPrompt) : list Choice :=
  List.filter (fun choice => isChecked choice && negb (truthy (disabled choice)))
              (Choices.choices (choices (opt this))).

(** The text of one row without its line feed. *)
Definition rowLine (choice : Choice) (pointed : bool) : string :=
  if isSeparator choice then " " +:+ line choice
  else if truthy (disabled choice) then
    " - " +:+ name choice +:+ " (" +:+ disabledText (disabled choice) +:+ ")"
  else if pointed then
    chalk.cyan (figures.pointer +:+ getCheckbox (checked choice) +:+ " " +:+ name choice)
  else " " +:+ getCheckbox (checked choice) +:+ " " +:+ name choice.

(** The bottom line that [render(error)] builds. *)
Definition bottomLine (error : option string) : string :=
  match error with
  | Some (String c e) => chalk.red ">> " +:+ String c e
  | _ => ""
  end.

(** The keys whose handlers [_run] subscribes. *)
Inductive Key := key_up | key_down | key_space | key_backspace.

Definition press (k : Key) : M unit :=
  match k with
  | key_up => onUpKey
  | key_down => onDownKey
  | key_space => onSpaceKey
  | key_backspace => onBackspaceKeyKey
  end.

Fixpoint pressAll (keys : list Key) : M unit :=
  match keys with
  | [] => mret tt
  | k :: keys' => press k;; pressAll keys'
  end.

(** How many times the backspace key occurs. *)
Fixpoint backspaces (keys : list Key) : nat :=
  match keys with
  | [] => 0
  | key_backspace :: keys' => S (backspaces keys')
  | _ :: keys' => backspaces keys'
  end.

(** The prompt as the space key leaves it, before it is rendered: every
    navigable row is unchecked, then the row under the pointer, if there is
    one, is checked and gives the selected label. *)
Definition afterSpace (this : RadioPrompt) : RadioPrompt :=
  let refs := Choices.realChoices (choices (opt this)) in
  let cleared := imap (clearedRow refs) (Choices.choices (choices (opt this))) in
  match Choices.getChoice (choices (opt this)) (pointer this) with
  | Some (r, item) =>
      set_selected (name item)
        (set_choices {| Choices.choices := alter (set_checked true) r cleared;
                        Choices.realChoices := refs |} this)
  | None =>
      set_selected ""
        (set_choices {| Choices.choices := cleared;
                        Choices.realChoices := refs |} this)
  end.

(** No separator is checked (the constructor checks one only when
    [undefined] is among the defaults). *)
Definition noSeparatorChecked (this : RadioPrompt) : Prop :=
  Forall (fun c => isSeparator c = true -> isChecked c = false)
         (Choices.choices (choices (opt this))).

(** The events of a session, one after the other. *)
Fixpoint dispatchAll (es : list events.t) (ss : Session) : Result Session :=
  match es with
  | [] => Returns ss
  | e :: es' =>
      match dispatch e ss with
      | Returns ss' => dispatchAll es' ss'
      | Throws err => Throws err
      end
  end.

(** The lines that a row takes in the choice block: one for a separator,
    those of its name for a choice. *)
Definition lineHeight (c : Choice) : Z :=
  if isSeparator c then 1 else Z.of_nat (split_lines_length (name c)).

(** The lines that the first [n] rows take. *)
Fixpoint linesOf (n : nat) (l : list Choice) : Z :=
  match n, l with
  | S n', c :: l' => lineHeight c + linesOf n' l'
  | _, _ => 0
  end.

(** The line to keep in view: the last line of the row under the pointer,
    -1 when no row is under it. *)
Definition focusLine (cs : Choices.t) (p : Z) : Z :=
  linesOf (Z.to_nat (indexPosition cs p + 1)) (Choices.choices cs) - 1.

(** The choice block: the lines of the rows joined by line feeds. *)
Definition choiceBlock (cs : Choices.t) (p : Z) : string :=
  join nl
    (imap (fun j c =>
             rowLine c (Z.of_nat (realBefore (Choices.choices cs) j) =? p))
          (Choices.choices cs)).

(** The main block of a frame, written from what it shows: the question,
    the hint line unless it is suppressed, and then either the finalized
    selection or the page of the choice block. *)
Definition frameMessage (this : RadioPrompt) : string :=
  (if dontShowHints this then getQuestion this
   else getQuestion this +:+ hints) +:+
  match status this with
  | answered =>
      chalk.cyan (join ", " match selection this with
                            | Some sel => sel
                            | None => []
                            end)
  | active =>
      nl +:+
      paginate (paginator this)
        (choiceBlock (choices (opt this)) (pointer this))
        (focusLine (choices (opt this)) (pointer this))
        (pageSize (opt this))
  end.


(** * Properties *)

(** ** The monad and the renderer *)

Ltac munfold :=
  unfold mbind, mret, M_bind, M_ret, get, modify, throw, emit in *.

Lemma renderFrame_inv error this frame this' :
  renderFrame error this = Returns (frame, this') -> this' = this.
Proof.
  unfold renderFrame. munfold.
  destruct (status this); [|destruct (selection this)]; intros H;
    by inversion H.
Qed.

Lemma renderFrame_returns error this :
  renderable this -> exists frame, renderFrame error this = Returns (frame, this).
Proof.
  intros Hr. unfold renderFrame. munfold.
  destruct (status this) eqn:Hst; [by eexists|].
  destruct (selection this) eqn:Hsel; [by eexists|].
  by destruct (Hr Hst).
Qed.

Lemma render_returns error this :
  renderable this ->
  exists message bottomContent,
    renderFrame error this = Returns ((message, bottomContent), this) /\
    render error this
    = Returns (tt, add_effect (screen_render message bottomContent) this).
Proof.
  intros Hr. destruct (renderFrame_returns error this Hr) as [[m b] Hf].
  exists m, b. split; [done|]. unfold render. munfold. by rewrite Hf.
Qed.

Lemma delivered_add_effect e this :
  delivered (add_effect e this)
  = delivered this ++ match e with done v => [v] | _ => [] end.
Proof.
  unfold delivered. simpl. rewrite omap_app. by destruct e.
Qed.

(** ** Submit and cancel *)

Lemma onEnd_cancel this :
  exists message bottomContent,
    onEnd None this
    = Returns (tt,
        add_effect (done cancelString)
          (add_effect cliCursor_show
            (add_effect screen_done
              (add_effect (screen_render message bottomContent)
                (set_dontShowHints true
                  (set_status answered
                    (set_selection (Some []) this))))))).
Proof.
  unfold onEnd. munfold. simpl. munfold. by eexists _, _.
Qed.

(** C6: whatever the state (whatever is checked, whatever was selected
    or answered before), the backspace handler returns, hands the
    cancellation sentinel to the completion callback and leaves the
    session answered with an empty selection. *)
Theorem backspace_cancels (this : RadioPrompt) :
  exists this',
    onBackspaceKeyKey this = Returns (tt, this') /\
    delivered this' = delivered this ++ [cancelString] /\
    status this' = answered /\
    selection this' = Some [] /\
    opt this' = opt this.
Proof.
  destruct (onEnd_cancel this) as (m & b & H).
  eexists. split; [exact H|].
  rewrite !delivered_add_effect. simpl. rewrite !app_nil_r. done.
Qed.

(** The same through the event wiring, as long as no submit has
    succeeded. *)
Lemma dispatch_backspace ss :
  success ss = false ->
  exists ss',
    dispatch events.backspaceKey ss = Returns ss' /\
    delivered (prompt ss') = delivered (prompt ss) ++ [cancelString] /\
    status (prompt ss') = answered.
Proof.
  intros Hs. destruct (onEnd_cancel (prompt ss)) as (m & b & H).
  unfold dispatch, run_handler, onBackspaceKeyKey. rewrite Hs, H.
  eexists. split; [done|]. simpl.
  rewrite !delivered_add_effect. simpl. by rewrite !app_nil_r.
Qed.




(** ** Lookups and writes through [getChoice] *)

Lemma getChoice_out_of_range cs (index : Z) :
  index < 0 \/ Z.of_nat (Choices.realLength cs) <= index ->
  Choices.getChoice cs index = None.
Proof.
  intros H. unfold Choices.getChoice.
  destruct (Z.leb_spec 0 index) as [H0|H0]; [|done].
  destruct H as [H|H]; [lia|].
  rewrite (lookup_ge_None_2 (Choices.realChoices cs)); [done|].
  unfold Choices.realLength in H. lia.
Qed.

Lemma getChoice_Some cs index r item :
  Choices.getChoice cs index = Some (r, item) ->
  0 <= index /\
  Choices.realChoices cs !! Z.to_nat index = Some r /\
  Choices.choices cs !! r = Some item.
Proof.
  unfold Choices.getChoice. destruct (Z.leb_spec 0 index) as [H0|H0]; [|done].
  intros H. simplify_option_eq. done.
Qed.

Lemma setChoice_None this index :
  Choices.getChoice (choices (opt this)) index = None ->
  setChoice index this = Returns (tt, this).
Proof. intros H. unfold setChoice. munfold. by rewrite H. Qed.

Lemma setChoice_Some this index r item :
  Choices.getChoice (choices (opt this)) index = Some (r, item) ->
  setChoice index this
  = Returns (tt, set_selected (name item)
                   (set_choices (Choices.update r (set_checked true)
                                                (choices (opt this))) this)).
Proof. intros H. unfold setChoice. munfold. by rewrite H. Qed.

Lemma clearChoice_None this index :
  Choices.getChoice (choices (opt this)) index = None ->
  clearChoice index this = Returns (tt, this).
Proof. intros H. unfold clearChoice. munfold. by rewrite H. Qed.

Lemma clearChoice_Some this index r item :
  Choices.getChoice (choices (opt this)) index = Some (r, item) ->
  clearChoice index this
  = Returns (tt,
      let this1 := set_choices (Choices.update r (set_checked false)
                                               (choices (opt this))) this in
      if String.eqb (selected this) (name item)
      then set_selected "" this1 else this1).
Proof.
  intros H. unfold clearChoice. munfold. rewrite H. simpl.
  by destruct (String.eqb _ _).
Qed.

(** C7: with an index that is no position among the navigable rows
    (negative, or at or past [realLength]), [setChoice] and [clearChoice]
    both return without an error and leave the whole prompt, every
    checked flag and the selected label included, as it was. *)
Theorem setChoice_clearChoice_out_of_range (this : RadioPrompt) (index : Z) :
  index < 0 \/ Z.of_nat (Choices.realLength (choices (opt this))) <= index ->
  setChoice index this = Returns (tt, this) /\
  clearChoice index this = Returns (tt, this).
Proof.
  intros H. apply getChoice_out_of_range in H.
  split; [by apply setChoice_None | by apply clearChoice_None].
Qed.

(** ** The loop of [clearAllChoices] *)

Lemma set_selected_set_choices_id this :
  set_selected (selected this)
    (set_choices {| Choices.choices := Choices.choices (choices (opt this));
                    Choices.realChoices := Choices.realChoices (choices (opt this)) |}
                 this) = this.
Proof. by destruct this as [[[] ? ? ? ? ? ?] ? ? ? ? ? ? ? ?]. Qed.

Lemma imap_clearedRow_nil (l : list Choice) : imap (clearedRow []) l = l.
Proof.
  apply list_eq; intros j. rewrite list_lookup_imap.
  unfold clearedRow. rewrite bool_decide_eq_false_2 by apply not_elem_of_nil.
  by destruct (l !! j).
Qed.

Lemma clearedRow_cons_ne r refs j c :
  r <> j -> clearedRow (r :: refs) j c = clearedRow refs j c.
Proof.
  intros Hne. unfold clearedRow.
  rewrite (bool_decide_ext (j ∈ r :: refs) (j ∈ refs)); [done|].
  rewrite elem_of_cons. split; [by intros [->|?] | by right].
Qed.

Lemma imap_clearedRow_cons (l : list Choice) r refs :
  imap (clearedRow refs) (alter (set_checked false) r l)
  = imap (clearedRow (r :: refs)) l.
Proof.
  apply list_eq; intros j. rewrite !list_lookup_imap.
  destruct (decide (r = j)) as [->|Hne].
  - rewrite list_lookup_alter_eq. destruct (l !! j) as [c|]; [|done]; simpl.
    unfold clearedRow. rewrite (bool_decide_eq_true_2 (j ∈ j :: refs)) by left.
    by case_bool_decide.
  - rewrite list_lookup_alter_ne by done.
    destruct (l !! j) as [c|]; [|done]; simpl.
    by rewrite clearedRow_cons_ne.
Qed.

Lemma imap_clearedRow_dangling (l : list Choice) r refs :
  l !! r = None ->
  imap (clearedRow (r :: refs)) l = imap (clearedRow refs) l.
Proof.
  intros Hr. apply list_eq; intros j. rewrite !list_lookup_imap.
  destruct (l !! j) as [c|] eqn:Hj; [|done]; simpl.
  rewrite clearedRow_cons_ne; [done|]. congruence.
Qed.

Lemma for_loop_clearChoice n : forall i this,
  exists label,
    for_loop i n clearChoice this
    = Returns (tt,
        set_selected label
          (set_choices
             {| Choices.choices :=
                  imap (clearedRow (take n (drop i (Choices.realChoices (choices (opt this))))))
                       (Choices.choices (choices (opt this)));
                Choices.realChoices := Choices.realChoices (choices (opt this)) |}
             this)).
Proof.
  induction n as [|n IH]; intros i this.
  - exists (selected this). simpl. rewrite imap_clearedRow_nil.
    by rewrite set_selected_set_choices_id.
  - simpl. unfold mbind at 1. unfold M_bind.
    destruct (Choices.getChoice (choices (opt this)) (Z.of_nat i))
      as [[r item]|] eqn:Hget.
    + rewrite (clearChoice_Some _ _ _ _ Hget).
      apply getChoice_Some in Hget as (_ & Hr & Hitem).
      rewrite Nat2Z.id in Hr.
      set (this1 := if String.eqb _ _ then _ else _).
      destruct (IH (S i) this1) as [label ->]. exists label.
      assert (Hdrop : drop i (Choices.realChoices (choices (opt this)))
                      = r :: drop (S i) (Choices.realChoices (choices (opt this))))
        by (by apply drop_S).
      rewrite Hdrop. simpl. rewrite <- imap_clearedRow_cons.
      subst this1. by destruct (String.eqb _ _).
    + rewrite (clearChoice_None _ _ Hget).
      destruct (IH (S i) this) as [label ->]. exists label.
      do 4 f_equal.
      unfold Choices.getChoice in Hget.
      rewrite (proj2 (Z.leb_le 0 (Z.of_nat i))) in Hget by lia.
      rewrite Nat2Z.id in Hget.
      destruct (Choices.realChoices (choices (opt this)) !! i) as [r|] eqn:Hr.
      * simpl in Hget.
        destruct (Choices.choices (choices (opt this)) !! r) eqn:Hitem; [done|].
        rewrite (drop_S _ _ _ Hr). simpl. by rewrite imap_clearedRow_dangling.
      * apply lookup_ge_None in Hr.
        rewrite !drop_ge by lia. by rewrite !take_nil.
Qed.

Lemma clearAllChoices_returns this :
  clearAllChoices this
  = Returns (tt,
      set_selected ""
        (set_choices
           {| Choices.choices :=
                imap (clearedRow (Choices.realChoices (choices (opt this))))
                     (Choices.choices (choices (opt this)));
              Choices.realChoices := Choices.realChoices (choices (opt this)) |}
           this)).
Proof.
  unfold clearAllChoices. munfold.
  destruct (for_loop_clearChoice (Choices.realLength (choices (opt this))) 0 this)
    as [label ->].
  unfold Choices.realLength. rewrite drop_0, firstn_all. done.
Qed.

(** ** The references of the navigable rows *)

Lemma real_refs_lookup (l : list Choice) : forall (i k r : nat),
  Choices.real_refs i l !! k = Some r <->
  exists m c, r = (i + m)%nat /\ l !! m = Some c /\
              Choices.isReal c = true /\ realBefore l m = k.
Proof.
  unfold realBefore.
  induction l as [|c l IH]; intros i k r; simpl.
  - split; [done|]. by intros (m & c & _ & H & _).
  - destruct (Choices.isReal c) eqn:Hc.
    + destruct k as [|k]; simpl.
      * split.
        -- intros [= <-]. exists 0%nat, c. by rewrite Nat.add_0_r.
        -- intros (m & c' & -> & Hm & Hc' & Hk). destruct m as [|m].
           ++ by rewrite Nat.add_0_r.
           ++ simpl in Hk. by rewrite Hc in Hk.
      * rewrite IH. split.
        -- intros (m & c' & -> & Hm & Hc' & Hk). exists (S m), c'.
           simpl. rewrite Hc. simpl. repeat split; [lia|done..|by f_equal].
        -- intros (m & c' & -> & Hm & Hc' & Hk). destruct m as [|m].
           ++ done.
           ++ simpl in Hk, Hm. rewrite Hc in Hk. simpl in Hk.
              exists m, c'. repeat split; [lia|done..|by injection Hk].
    + rewrite IH. split.
      * intros (m & c' & -> & Hm & Hc' & Hk). exists (S m), c'.
        simpl. rewrite Hc. repeat split; [lia|done..].
      * intros (m & c' & -> & Hm & Hc' & Hk). destruct m as [|m].
        -- simpl in Hm. injection Hm as ->. congruence.
        -- simpl in Hk, Hm. rewrite Hc in Hk.
           exists m, c'. repeat split; [lia|done..].
Qed.

Lemma elem_of_real_refs (l : list Choice) (r : nat) :
  r ∈ Choices.real_refs 0 l <->
  exists c, l !! r = Some c /\ Choices.isReal c = true.
Proof.
  rewrite list_elem_of_lookup. split.
  - intros (k & Hk). apply real_refs_lookup in Hk as (m & c & -> & Hm & Hc & _).
    by exists c.
  - intros (c & Hr & Hc). exists (realBefore l r).
    apply real_refs_lookup. by exists r, c.
Qed.

Lemma isReal_set_checked b c :
  Choices.isReal (set_checked b c) = Choices.isReal c.
Proof. done. Qed.

Lemma real_refs_ext (l1 l2 : list Choice) i :
  Choices.isReal <$> l1 = Choices.isReal <$> l2 ->
  Choices.real_refs i l1 = Choices.real_refs i l2.
Proof.
  revert l2 i. induction l1 as [|c1 l1 IH]; intros [|c2 l2] i; simpl; try done.
  intros [= Hc Hl]. rewrite Hc. rewrite (IH l2 (S i) Hl). done.
Qed.

Lemma wf_getChoice cs index r item :
  Choices.wf cs ->
  Choices.getChoice cs index = Some (r, item) ->
  Choices.isReal item = true /\
  realBefore (Choices.choices cs) r = Z.to_nat index.
Proof.
  intros Hwf Hget. apply getChoice_Some in Hget as (H0 & Hr & Hitem).
  rewrite Hwf in Hr. apply real_refs_lookup in Hr as (m & c & -> & Hm & Hc & Hk).
  simpl in Hitem. by simplify_eq.
Qed.

(** ** [clearAllChoices] *)

Lemma isReal_clearedRow refs j c :
  Choices.isReal (clearedRow refs j c) = Choices.isReal c.
Proof. unfold clearedRow. by case_bool_decide. Qed.

Lemma wf_imap (f : nat -> Choice -> Choice) cs :
  (forall j c, Choices.isReal (f j c) = Choices.isReal c) ->
  Choices.wf cs ->
  Choices.wf {| Choices.choices := imap f (Choices.choices cs);
                Choices.realChoices := Choices.realChoices cs |}.
Proof.
  intros Hf Hwf. unfold Choices.wf in *. simpl. rewrite Hwf.
  apply real_refs_ext, list_eq. intros j.
  rewrite !list_lookup_fmap, list_lookup_imap.
  destruct (Choices.choices cs !! j); simpl; [|done]. by rewrite Hf.
Qed.

Lemma wf_update r b cs :
  Choices.wf cs -> Choices.wf (Choices.update r (set_checked b) cs).
Proof.
  intros Hwf. unfold Choices.wf, Choices.update in *. simpl. rewrite Hwf.
  apply real_refs_ext, list_eq. intros j. rewrite !list_lookup_fmap.
  destruct (decide (r = j)) as [->|Hne].
  - rewrite list_lookup_alter_eq. by destruct (Choices.choices cs !! j).
  - by rewrite list_lookup_alter_ne.
Qed.

Lemma wf_new l : Choices.wf (Choices.new l).
Proof. done. Qed.

Lemma wf_push v cs : Choices.wf (Choices.push v cs).
Proof. apply wf_new. Qed.

Create HintDb prompt.
#[local] Hint Resolve wf_new wf_push wf_update wf_imap isReal_clearedRow : prompt.

(** C5 (amended): [clearAllChoices] returns, resets the selected label to
    the empty string and unchecks every navigable row (neither separator
    nor disabled); the rows outside the navigable ones are left as they
    were. *)
Theorem clearAllChoices_clears_navigable (this : RadioPrompt) :
  Choices.wf (choices (opt this)) ->
  exists this',
    clearAllChoices this = Returns (tt, this') /\
    selected this' = "" /\
    Choices.wf (choices (opt this')) /\
    (forall j c, Choices.choices (choices (opt this')) !! j = Some c ->
                 Choices.isReal c = true -> checked c = Some false) /\
    (forall j c, Choices.choices (choices (opt this)) !! j = Some c ->
                 Choices.isReal c = false ->
                 Choices.choices (choices (opt this')) !! j = Some c).
Proof.
  intros Hwf. eexists. split; [apply clearAllChoices_returns|]. simpl.
  split; [done|]. split; [|split].
  - eauto with prompt.
  - intros j c. rewrite list_lookup_imap.
    destruct (Choices.choices (choices (opt this)) !! j) as [c0|] eqn:Hj;
      [|done]; simpl.
    intros [= <-] Hreal. rewrite isReal_clearedRow in Hreal.
    unfold clearedRow. rewrite bool_decide_eq_true_2; [done|].
    rewrite Hwf. apply elem_of_real_refs. by exists c0.
  - intros j c Hj Hreal. rewrite list_lookup_imap, Hj. simpl.
    unfold clearedRow. rewrite bool_decide_eq_false_2; [done|].
    rewrite Hwf, elem_of_real_refs. intros (c' & Hj' & Hc'). congruence.
Qed.

(** [update] replaces the list and leaves the collection well formed,
    whatever it was before. *)
Lemma update_wf values pointed selected this this' :
  update values pointed selected this = Returns (tt, this') ->
  Choices.wf (choices (opt this')).
Proof.
  unfold update, removeAll, mbind, M_bind, modify. simpl.
  set (cs := fold_left _ values _).
  assert (Hcs : Choices.wf cs).
  { subst cs. generalize (Choices.mk [] []) (eq_refl : Choices.wf (Choices.mk [] [])).
    induction values as [|v values IH]; intros cs0 Hcs0; simpl; [done|].
    apply IH, wf_push. }
  set (this1 := set_pointer pointed _).
  assert (Hwf1 : Choices.wf (choices (opt this1))) by exact Hcs.
  clearbody this1. clear cs Hcs.
  destruct (selected =? -1).
  - unfold mret, M_ret. intros H.
    destruct (renderFrame None this1) as [[frame this2]|e] eqn:Hf;
      unfold render, mbind, M_bind in H; rewrite Hf in H; [|done].
    apply renderFrame_inv in Hf as ->. by injection H as <-.
  - destruct (Choices.getChoice (choices (opt this1)) selected) as [[r item]|] eqn:Hget.
    + rewrite (setChoice_Some _ _ _ _ Hget). intros H.
      set (this2 := set_selected _ _) in H.
      assert (Hwf2 : Choices.wf (choices (opt this2))) by (by apply wf_update).
      clearbody this2.
      destruct (renderFrame None this2) as [[frame this3]|e] eqn:Hf;
        unfold render, mbind, M_bind in H; rewrite Hf in H; [|done].
      apply renderFrame_inv in Hf as ->. by injection H as <-.
    + rewrite (setChoice_None _ _ Hget). intros H.
      destruct (renderFrame None this1) as [[frame this2]|e] eqn:Hf;
        unfold render, mbind, M_bind in H; rewrite Hf in H; [|done].
      apply renderFrame_inv in Hf as ->. by injection H as <-.
Qed.

Lemma clearAllChoices_clears_navigable_witness :
  exists this',
    clearAllChoices
      {| opt := {| choices := Choices.new [row "A"; separatorRow "--"; set_checked true (row "B")];
                   default := default_none; loop := None; pageSize := None;
                   message := "Pick one"; validate := fun _ => isValid_true;
                   filter := fun vs => vs |};
         pointer := 1; selected := "B"; selection := None; status := active;
         dontShowHints := false; firstRender := false;
         paginator := wholeText true; trace := [] |}
    = Returns (tt, this') /\ selected this' = "".
Proof.
  edestruct clearAllChoices_clears_navigable as (this' & H1 & H2 & _);
    [|exists this'; split; [exact H1|exact H2]].
  apply wf_new.
Defined.

(** C5 as stated fails: a disabled row and a separator that the
    constructor has checked from the defaults are still checked after
    [clearAllChoices]. *)
Lemma clearAllChoices_keeps_checked_outside_navigable :
  exists this this',
    constructor wholeText
      (question [disabledRow "A"; separatorRow "--"; row "B"]
                (default_array [VString "A"; VUndefined; VString "B"]))
    = Returns this /\
    clearAllChoices this = Returns (tt, this') /\
    checked <$> Choices.choices (choices (opt this'))
    = [Some true; Some true; Some false].
Proof. by eexists _, _. Qed.

(** ** One checked row *)

Section filter_facts.
Context {A : Type} (P : A -> bool).

Lemma filter_all_false (l : list A) :
  (forall k x, l !! k = Some x -> P x = false) -> List.filter P l = [].
Proof.
  induction l as [|x l IH]; intros H; simpl; [done|].
  rewrite (H 0%nat x eq_refl). apply IH. intros k y Hk. by apply (H (S k)).
Qed.

Lemma filter_only (l : list A) : forall r x,
  l !! r = Some x -> P x = true ->
  (forall k y, k <> r -> l !! k = Some y -> P y = false) ->
  List.filter P l = [x].
Proof.
  induction l as [|x0 l IH]; intros r x Hr Hx Hothers; [done|].
  destruct r as [|r]; simpl in *.
  - injection Hr as ->. rewrite Hx. f_equal.
    apply filter_all_false. intros k y Hk. by apply (Hothers (S k)).
  - rewrite (Hothers 0%nat x0) by done.
    apply (IH r); [done..|]. intros k y Hne Hk.
    apply (Hothers (S k)); [lia|done].
Qed.

Lemma filter_alter_le (f : A -> A) (l : list A) r :
  (forall x, P (f x) = true -> P x = true) ->
  (List.length (List.filter P (alter f r l)) <= List.length (List.filter P l))%nat.
Proof.
  intros Hf. revert r. induction l as [|x l IH]; intros r; [done|].
  destruct r as [|r]; simpl.
  - destruct (P (f x)) eqn:Hfx; [rewrite (Hf _ Hfx); done|].
    destruct (P x); simpl; lia.
  - specialize (IH r). change (list_alter f r l) with (alter f r l).
    destruct (P x); simpl; lia.
Qed.

End filter_facts.

(** [clearAllChoices] followed by [setChoice] on a navigable row: that row
    is the only Selectable row checked. *)
Lemma clearAllChoices_setChoice this index r item :
  Choices.wf (choices (opt this)) ->
  Choices.getChoice (choices (opt this)) index = Some (r, item) ->
  exists this1 this',
    clearAllChoices this = Returns (tt, this1) /\
    pointer this1 = pointer this /\
    setChoice index this1 = Returns (tt, this') /\
    checkedSelectable this' = [set_checked true item] /\
    selected this' = name item /\
    Choices.wf (choices (opt this')) /\
    status this' = status this /\ selection this' = selection this /\
    pointer this' = pointer this.
Proof.
  intros Hwf Hget. rewrite clearAllChoices_returns.
  eexists. set (this1 := set_selected "" _).
  assert (Hget1 : Choices.getChoice (choices (opt this1)) index
                  = Some (r, set_checked false item)).
  { destruct (wf_getChoice _ _ _ _ Hwf Hget) as [Hreal _].
    apply getChoice_Some in Hget as (H0 & Hr & Hitem).
    unfold Choices.getChoice. rewrite (proj2 (Z.leb_le 0 index) H0). simpl.
    rewrite Hr. simpl. rewrite list_lookup_imap, Hitem. simpl.
    unfold clearedRow. rewrite bool_decide_eq_true_2; [done|].
    rewrite Hwf. apply elem_of_real_refs. by exists item. }
  rewrite (setChoice_Some _ _ _ _ Hget1). eexists.
  split; [done|]. split; [done|]. split; [done|].
  destruct (wf_getChoice _ _ _ _ Hwf Hget) as [Hreal _].
  apply getChoice_Some in Hget as (H0 & Hr & Hitem).
  split; [|split; [done|split; [|done]]].
  - unfold checkedSelectable. simpl. apply (filter_only _ _ r).
    + rewrite list_lookup_alter_eq, list_lookup_imap, Hitem. simpl.
      unfold clearedRow. by case_bool_decide.
    + by rewrite isReal_set_checked, Hreal.
    + intros k y Hne. rewrite list_lookup_alter_ne, list_lookup_imap by done.
      destruct (Choices.choices (choices (opt this)) !! k) as [c|] eqn:Hk;
        [|done]; simpl.
      intros [= <-]. rewrite isReal_clearedRow.
      destruct (Choices.isReal c) eqn:Hc; [|done]. simpl.
      unfold clearedRow. rewrite bool_decide_eq_true_2; [done|].
      rewrite Hwf. apply elem_of_real_refs. by exists c.
  - simpl. apply (wf_update r true
      {| Choices.choices := _; Choices.realChoices := _ |}).
    eauto with prompt.
Qed.

(** After [clearAllChoices] no Selectable row is checked. *)
Lemma clearAllChoices_none_checked this :
  Choices.wf (choices (opt this)) ->
  exists this1,
    clearAllChoices this = Returns (tt, this1) /\
    checkedSelectable this1 = [] /\
    Choices.wf (choices (opt this1)) /\
    Choices.realChoices (choices (opt this1))
    = Choices.realChoices (choices (opt this)) /\
    List.length (Choices.choices (choices (opt this1)))
    = List.length (Choices.choices (choices (opt this))) /\
    status this1 = status this /\ selection this1 = selection this /\
    pointer this1 = pointer this.
Proof.
  intros Hwf. rewrite clearAllChoices_returns. eexists. split; [done|].
  split; [|split; [|split; [done|split; [|done]]]].
  - unfold checkedSelectable. simpl. apply filter_all_false.
    intros k y. rewrite list_lookup_imap.
    destruct (Choices.choices (choices (opt this)) !! k) as [c|] eqn:Hk;
      [|done]; simpl.
    intros [= <-]. rewrite isReal_clearedRow.
    destruct (Choices.isReal c) eqn:Hc; [|done]. simpl.
    unfold clearedRow. rewrite bool_decide_eq_true_2; [done|].
    rewrite Hwf. apply elem_of_real_refs. by exists c.
  - simpl. eauto with prompt.
  - simpl. apply length_imap.
Qed.

Lemma getChoice_update_ne cs index r item r0 f :
  Choices.getChoice cs index = Some (r, item) ->
  r0 <> r ->
  Choices.getChoice (Choices.update r0 f cs) index = Some (r, item).
Proof.
  intros Hget Hne. apply getChoice_Some in Hget as (H0 & Hr & Hitem).
  unfold Choices.getChoice. rewrite (proj2 (Z.leb_le 0 index) H0). simpl.
  rewrite Hr. simpl. by rewrite list_lookup_alter_ne, Hitem.
Qed.

Lemma getChoice_refs_ne cs i j ri ci rj cj :
  Choices.wf cs -> i <> j ->
  Choices.getChoice cs i = Some (ri, ci) ->
  Choices.getChoice cs j = Some (rj, cj) ->
  ri <> rj.
Proof.
  intros Hwf Hne Hi Hj ->.
  destruct (wf_getChoice _ _ _ _ Hwf Hi) as [_ Hki].
  destruct (wf_getChoice _ _ _ _ Hwf Hj) as [_ Hkj].
  apply getChoice_Some in Hi as (H0i & _). apply getChoice_Some in Hj as (H0j & _).
  lia.
Qed.

(** C3 (amended): on two distinct navigable positions [i] and [j],
    [setChoice(i)] then [setChoice(j)] leaves both rows checked, with the
    label of the second: [setChoice] never unchecks.  Exactly one
    Selectable row, the one at [j], is checked when [clearAllChoices] runs
    before [setChoice(j)], as the space key does. *)
Theorem setChoice_twice (this : RadioPrompt) (i j : Z) ri ci rj cj :
  Choices.wf (choices (opt this)) ->
  i <> j ->
  Choices.getChoice (choices (opt this)) i = Some (ri, ci) ->
  Choices.getChoice (choices (opt this)) j = Some (rj, cj) ->
  (exists this',
     (setChoice i;; setChoice j) this = Returns (tt, this') /\
     ri <> rj /\
     Choices.choices (choices (opt this')) !! ri = Some (set_checked true ci) /\
     Choices.choices (choices (opt this')) !! rj = Some (set_checked true cj) /\
     selected this' = name cj) /\
  (exists this',
     (setChoice i;; clearAllChoices;; setChoice j) this = Returns (tt, this') /\
     checkedSelectable this' = [set_checked true cj] /\
     selected this' = name cj).
Proof.
  intros Hwf Hne Hi Hj.
  assert (Hr : ri <> rj) by (by eapply getChoice_refs_ne).
  set (this1 := set_selected (name ci)
    (set_choices (Choices.update ri (set_checked true) (choices (opt this))) this)).
  assert (Hj1 : Choices.getChoice (choices (opt this1)) j = Some (rj, cj))
    by (by apply getChoice_update_ne).
  assert (Hwf1 : Choices.wf (choices (opt this1))) by (by apply wf_update).
  split.
  - unfold mbind, M_bind. rewrite (setChoice_Some _ _ _ _ Hi).
    fold this1. rewrite (setChoice_Some _ _ _ _ Hj1).
    eexists. split; [done|]. simpl.
    apply getChoice_Some in Hi as (_ & _ & Hci).
    apply getChoice_Some in Hj as (_ & _ & Hcj).
    split; [done|]. split; [|split; [|done]].
    + rewrite list_lookup_alter_ne, list_lookup_alter_eq, Hci by done. done.
    + rewrite list_lookup_alter_eq, list_lookup_alter_ne, Hcj by done. done.
  - destruct (clearAllChoices_setChoice this1 j rj cj Hwf1 Hj1)
      as (this2 & this' & Hclear & _ & Hset & Hone & Hsel & _).
    exists this'. split; [|done].
    unfold mbind, M_bind. rewrite (setChoice_Some _ _ _ _ Hi).
    fold this1. by rewrite Hclear.
Qed.

Lemma setChoice_twice_witness :
  exists this',
    (setChoice 0;; clearAllChoices;; setChoice 1)
      {| opt := {| choices := Choices.new [row "A"; separatorRow "--"; row "B"];
                   default := default_none; loop := None; pageSize := None;
                   message := "Pick one"; validate := fun _ => isValid_true;
                   filter := fun vs => vs |};
         pointer := 0; selected := ""; selection := None; status := active;
         dontShowHints := false; firstRender := false;
         paginator := wholeText true; trace := [] |}
    = Returns (tt, this') /\
    checkedSelectable this' = [set_checked true (row "B")] /\
    selected this' = "B".
Proof.
  refine (proj2 (setChoice_twice _ 0 1 0%nat (row "A") 2%nat (row "B") _ _ _ _));
    [apply wf_new|lia|reflexivity|reflexivity].
Defined.

(** C3 as stated fails: after [setChoice(0)] and [setChoice(1)] on the two
    unchecked rows A and B, both are checked. *)
Lemma setChoice_twice_checks_two :
  exists this this',
    constructor wholeText (question [row "A"; row "B"] default_none)
    = Returns this /\
    (setChoice 0;; setChoice 1) this = Returns (tt, this') /\
    checked <$> Choices.choices (choices (opt this')) = [Some true; Some true] /\
    List.length (checkedSelectable this') = 2%nat.
Proof.
  eexists _, _. split; [reflexivity|]. split; [vm_compute; reflexivity|].
  split; reflexivity.
Qed.

(** ** The single selection as an invariant *)

Lemma render_keeps error this :
  renderable this ->
  exists this',
    render error this = Returns (tt, this') /\
    opt this' = opt this /\ pointer this' = pointer this /\
    selected this' = selected this /\ selection this' = selection this /\
    status this' = status this.
Proof.
  intros Hr. destruct (render_returns error this Hr) as (m & b & _ & ->).
  by eexists.
Qed.

Lemma getChoice_same_shape cs1 cs2 index :
  Choices.realChoices cs1 = Choices.realChoices cs2 ->
  List.length (Choices.choices cs1) = List.length (Choices.choices cs2) ->
  Choices.getChoice cs2 index = None ->
  Choices.getChoice cs1 index = None.
Proof.
  intros Hrefs Hlen. unfold Choices.getChoice. rewrite Hrefs.
  destruct (0 <=? index); [|done].
  destruct (Choices.realChoices cs2 !! Z.to_nat index) as [r|]; [|done]; simpl.
  destruct (Choices.choices cs2 !! r) eqn:H2; [done|]. intros _.
  apply lookup_ge_None in H2. rewrite <- Hlen in H2.
  by rewrite (lookup_ge_None_2 _ _ H2).
Qed.

Lemma onSpaceKey_single this :
  Choices.wf (choices (opt this)) -> renderable this ->
  exists this',
    onSpaceKey this = Returns (tt, this') /\
    Choices.wf (choices (opt this')) /\ renderable this' /\
    atMostOneChecked this'.
Proof.
  intros Hwf Hr. unfold onSpaceKey, mbind, M_bind, get.
  destruct (Choices.getChoice (choices (opt this)) (pointer this))
    as [[r item]|] eqn:Hget.
  - destruct (clearAllChoices_setChoice _ _ _ _ Hwf Hget)
      as (this1 & this2 & -> & -> & -> & Hone & _ & Hwf2 & Hst & Hsel & _).
    assert (Hr2 : renderable this2) by (unfold renderable; by rewrite Hst, Hsel).
    destruct (render_keeps None this2 Hr2) as (this' & -> & Hopt & _ & _ & Hsel' & Hst').
    exists this'. split; [done|]. unfold atMostOneChecked, checkedSelectable, renderable.
    rewrite Hopt, Hsel', Hst'. fold (checkedSelectable this2). rewrite Hone.
    repeat split; [done|done|simpl; lia].
  - destruct (clearAllChoices_none_checked _ Hwf)
      as (this1 & -> & Hnone & Hwf1 & Hrefs & Hlen & Hst & Hsel & ->).
    rewrite setChoice_None by (by eapply getChoice_same_shape).
    assert (Hr1 : renderable this1) by (unfold renderable; by rewrite Hst, Hsel).
    destruct (render_keeps None this1 Hr1) as (this' & -> & Hopt & _ & _ & Hsel' & Hst').
    exists this'. split; [done|]. unfold atMostOneChecked, checkedSelectable, renderable.
    rewrite Hopt, Hsel', Hst'. fold (checkedSelectable this1). rewrite Hnone.
    repeat split; [done|done|simpl; lia].
Qed.

Lemma onArrowKey_keeps dir this :
  renderable this ->
  exists this',
    (modify (fun this =>
       set_pointer (incrementListIndex (pointer this) dir (opt this)) this);;
     render None) this = Returns (tt, this') /\
    opt this' = opt this /\ selection this' = selection this /\
    status this' = status this.
Proof.
  intros Hr. unfold mbind, M_bind, modify.
  set (this1 := set_pointer _ this).
  destruct (render_keeps None this1 Hr) as (this' & -> & Hopt & _ & _ & Hsel & Hst).
  by exists this'.
Qed.

Lemma clearChoice_keeps index this :
  Choices.wf (choices (opt this)) ->
  exists this',
    clearChoice index this = Returns (tt, this') /\
    Choices.wf (choices (opt this')) /\
    selection this' = selection this /\ status this' = status this /\
    (List.length (checkedSelectable this') <= List.length (checkedSelectable this))%nat.
Proof.
  intros Hwf.
  destruct (Choices.getChoice (choices (opt this)) index) as [[r item]|] eqn:Hget.
  - rewrite (clearChoice_Some _ _ _ _ Hget). eexists. split; [done|].
    assert (Hle : (List.length
        (List.filter (fun choice => Choices.isReal choice && isChecked choice)
           (alter (set_checked false) r (Choices.choices (choices (opt this)))))
        <= List.length (checkedSelectable this))%nat).
    { apply filter_alter_le. intros x. rewrite isReal_set_checked.
      simpl. by rewrite andb_false_r. }
    simpl. destruct (String.eqb _ _); simpl;
      (split; [by apply wf_update|done]).
  - rewrite (clearChoice_None _ _ Hget). by exists this.
Qed.

Lemma perform_invariant (o : Operation) this :
  Choices.wf (choices (opt this)) -> renderable this -> atMostOneChecked this ->
  exists this',
    perform o this = Returns (tt, this') /\
    Choices.wf (choices (opt this')) /\ renderable this' /\
    atMostOneChecked this'.
Proof.
  intros Hwf Hr Hone. destruct o as [| | |index|]; simpl.
  - by apply onSpaceKey_single.
  - destruct (onArrowKey_keeps up this Hr) as (this' & H & Hopt & Hsel & Hst).
    exists this'. split; [exact H|].
    unfold atMostOneChecked, checkedSelectable, renderable.
    by rewrite Hopt, Hsel, Hst.
  - destruct (onArrowKey_keeps down this Hr) as (this' & H & Hopt & Hsel & Hst).
    exists this'. split; [exact H|].
    unfold atMostOneChecked, checkedSelectable, renderable.
    by rewrite Hopt, Hsel, Hst.
  - destruct (clearChoice_keeps index this Hwf) as (this' & -> & Hwf' & Hsel & Hst & Hle).
    exists this'. split; [done|]. unfold atMostOneChecked, renderable in *.
    rewrite Hsel, Hst. repeat split; [done|done|lia].
  - destruct (clearAllChoices_none_checked _ Hwf)
      as (this' & -> & Hnone & Hwf' & _ & _ & Hst & Hsel & _).
    exists this'. split; [done|]. unfold atMostOneChecked, renderable in *.
    rewrite Hsel, Hst, Hnone. repeat split; [done|done|simpl; lia].
Qed.

Lemma performAll_invariant (ops : list Operation) : forall this,
  Choices.wf (choices (opt this)) -> renderable this -> atMostOneChecked this ->
  exists this',
    performAll ops this = Returns (tt, this') /\
    Choices.wf (choices (opt this')) /\ renderable this' /\
    atMostOneChecked this'.
Proof.
  induction ops as [|o ops IH]; intros this Hwf Hr Hone; simpl.
  - by exists this.
  - destruct (perform_invariant o this Hwf Hr Hone) as (this1 & H1 & Hwf1 & Hr1 & Hone1).
    destruct (IH this1 Hwf1 Hr1 Hone1) as (this' & H' & ?).
    exists this'. split; [|done]. unfold mbind, M_bind. by rewrite H1.
Qed.

Lemma constructor_wf newPaginator q this :
  constructor newPaginator q = Returns this ->
  Choices.wf (choices (opt this)) /\ renderable this.
Proof.
  unfold constructor. destruct (q_choices q) as [l|]; [|done].
  intros [= <-]. split; [|done]. simpl.
  destruct (q_default q) as [| |vs]; [done..|].
  unfold Choices.wf. simpl. apply real_refs_ext, list_eq. intros j.
  rewrite !list_lookup_fmap. destruct (l !! j) as [c|]; [|done]; simpl.
  unfold checkDefault. by destruct (inDefault vs c).
Qed.

(** C2 (amended): from a prompt as its constructor leaves it, every
    sequence of space, arrow-key, [clearChoice] and [clearAllChoices]
    operations returns, and ends with at most one Selectable row checked,
    when the construction left at most one checked or when the sequence
    starts with the space key. *)
Theorem at_most_one_checked (newPaginator : bool -> Paginator) (q : Question)
    (this : RadioPrompt) (ops : list Operation) :
  constructor newPaginator q = Returns this ->
  (atMostOneChecked this ->
   exists this', performAll ops this = Returns (tt, this') /\
                 atMostOneChecked this') /\
  (exists this', performAll (op_space :: ops) this = Returns (tt, this') /\
                 atMostOneChecked this').
Proof.
  intros Hc. apply constructor_wf in Hc as [Hwf Hr]. split.
  - intros Hone.
    destruct (performAll_invariant ops this Hwf Hr Hone) as (this' & H & _ & _ & H1).
    by exists this'.
  - destruct (onSpaceKey_single this Hwf Hr) as (this1 & H1 & Hwf1 & Hr1 & Hone1).
    destruct (performAll_invariant ops this1 Hwf1 Hr1 Hone1) as (this' & H & _ & _ & H').
    exists this'. split; [|done]. simpl. unfold mbind, M_bind. by rewrite H1.
Qed.

Lemma at_most_one_checked_witness :
  exists this this',
    constructor wholeText
      (question [row "A"; separatorRow "--"; row "B"] (default_array [VString "B"]))
    = Returns this /\
    performAll [op_down; op_space; op_up; op_clearChoice 0] this
    = Returns (tt, this') /\
    atMostOneChecked this'.
Proof.
  eexists.
  destruct (at_most_one_checked wholeText
              (question [row "A"; separatorRow "--"; row "B"]
                        (default_array [VString "B"]))
              _ [op_down; op_space; op_up; op_clearChoice 0] eq_refl)
    as [H _].
  destruct H as (this' & Hrun & Hone).
  - unfold atMostOneChecked. simpl. lia.
  - exists this'. split; [reflexivity|]. split; [exact Hrun|exact Hone].
Defined.

(** C2 as stated fails: the constructor checks every row whose value is
    among the defaults, and the inverse operation checks every unchecked
    row, so two Selectable rows can be checked at once. *)
Lemma several_checked_reachable :
  (exists this,
     constructor wholeText
       (question [row "A"; row "B"] (default_array [VString "A"; VString "B"]))
     = Returns this /\
     checked <$> Choices.choices (choices (opt this)) = [Some true; Some true] /\
     ~ atMostOneChecked this) /\
  (exists this this',
     constructor wholeText (question [row "A"; row "B"] default_none)
     = Returns this /\
     onInverseKey this = Returns (tt, this') /\
     checked <$> Choices.choices (choices (opt this')) = [Some true; Some true] /\
     ~ atMostOneChecked this').
Proof.
  split.
  - eexists. split; [reflexivity|]. split; [reflexivity|].
    unfold atMostOneChecked. simpl. lia.
  - eexists _, _. split; [reflexivity|]. split; [vm_compute; reflexivity|].
    split; [reflexivity|]. unfold atMostOneChecked. simpl. lia.
Qed.

(** ** The inverse operation *)

Lemma inverse_inverse c :
  inverse (inverse c) = if isSeparator c then c else set_checked (isChecked c) c.
Proof.
  unfold inverse. destruct (isSeparator c) eqn:Hsep; [by rewrite Hsep|].
  unfold isSeparator in *. simpl. rewrite Hsep.
  unfold set_checked, isChecked. simpl. by rewrite negb_involutive.
Qed.

Lemma inverse_inverse_flag c :
  isChecked (inverse (inverse c)) = isChecked c /\
  set_checked false (inverse (inverse c)) = set_checked false c /\
  (checked c <> None -> inverse (inverse c) = c).
Proof.
  rewrite inverse_inverse. destruct (isSeparator c); [done|].
  split; [done|]. split; [done|].
  destruct c as [? ? ? ? ? [b|] ?]; [done|]. by intros [].
Qed.

(** C9: the inverse operation applied twice returns and restores the
    checked flag of every row, read as the boolean the code takes it for;
    the rows keep their order and all their other fields, and a row whose
    flag was a boolean before (or that is a separator) is exactly as it
    was. *)
Theorem onInverseKey_twice (this : RadioPrompt) :
  renderable this ->
  exists this',
    (onInverseKey;; onInverseKey) this = Returns (tt, this') /\
    isChecked <$> Choices.choices (choices (opt this'))
    = isChecked <$> Choices.choices (choices (opt this)) /\
    set_checked false <$> Choices.choices (choices (opt this'))
    = set_checked false <$> Choices.choices (choices (opt this)) /\
    (forall j c, Choices.choices (choices (opt this)) !! j = Some c ->
                 checked c <> None ->
                 Choices.choices (choices (opt this')) !! j = Some c).
Proof.
  intros Hr. unfold onInverseKey, mbind, M_bind, modify.
  set (this1 := set_choices _ this).
  destruct (render_returns None this1 Hr) as (m1 & b1 & _ & ->).
  set (this2 := set_choices _ _).
  assert (Hr2 : renderable this2) by exact Hr.
  destruct (render_returns None this2 Hr2) as (m2 & b2 & _ & ->).
  eexists. split; [done|]. simpl.
  rewrite <- !list_fmap_compose.
  split; [|split].
  - apply list_fmap_ext. intros j c _. simpl. apply inverse_inverse_flag.
  - apply list_fmap_ext. intros j c _. simpl. apply inverse_inverse_flag.
  - intros j c Hj Hc. rewrite list_lookup_fmap, Hj. simpl. f_equal.
    by apply inverse_inverse_flag.
Qed.

Lemma onInverseKey_twice_witness :
  exists this',
    (onInverseKey;; onInverseKey)
      {| opt := {| choices := Choices.new [set_checked true (row "A"); separatorRow "--"; row "B"];
                   default := default_none; loop := None; pageSize := None;
                   message := "Pick one"; validate := fun _ => isValid_true;
                   filter := fun vs => vs |};
         pointer := 0; selected := "A"; selection := None; status := active;
         dontShowHints := false; firstRender := false;
         paginator := wholeText true; trace := [] |}
    = Returns (tt, this') /\
    isChecked <$> Choices.choices (choices (opt this')) = [true; false; false].
Proof.
  edestruct onInverseKey_twice as (this' & H1 & H2 & _);
    [|exists this'; split; [exact H1|exact H2]].
  intros Hst. discriminate Hst.
Defined.

(** ** The name under the pointer *)

Lemma filter_isReal_lookup (l : list Choice) : forall r c,
  l !! r = Some c -> Choices.isReal c = true ->
  List.filter Choices.isReal l !! realBefore l r = Some c.
Proof.
  unfold realBefore.
  induction l as [|c0 l IH]; intros r c Hr Hc; [done|].
  destruct r as [|r]; simpl in *.
  - injection Hr as ->. by rewrite Hc.
  - destruct (Choices.isReal c0); simpl; by apply IH.
Qed.

(** C10: [getPointed] returns the empty string, without touching the
    prompt, when the list has no row; when the list has rows and the
    pointer is a position among the navigable rows, it returns the name
    of the navigable row at that position. *)
Theorem getPointed_spec (this : RadioPrompt) :
  Choices.wf (choices (opt this)) ->
  (Choices.choices (choices (opt this)) = [] ->
   getPointed this = Returns ("", this)) /\
  (Choices.choices (choices (opt this)) <> [] ->
   0 <= pointer this < Z.of_nat (Choices.realLength (choices (opt this))) ->
   exists item,
     List.filter Choices.isReal (Choices.choices (choices (opt this)))
       !! Z.to_nat (pointer this) = Some item /\
     getPointed this = Returns (name item, this)).
Proof.
  intros Hwf. unfold getPointed, Choices.length. munfold. split.
  - by intros ->.
  - intros Hne [H0 Hlt].
    assert (Hpos : (0 <? Z.of_nat (List.length (Choices.choices (choices (opt this)))))
                   = true).
    { destruct (Choices.choices (choices (opt this))); [done|].
      apply Z.ltb_lt. simpl. lia. }
    rewrite Hpos.
    destruct (lookup_lt_is_Some_2 (Choices.realChoices (choices (opt this)))
                (Z.to_nat (pointer this))) as [r Hr].
    { unfold Choices.realLength in Hlt. lia. }
    pose proof Hr as Hr'. rewrite Hwf in Hr'.
    apply real_refs_lookup in Hr' as (m & c & -> & Hm & Hc & Hk).
    simpl in Hr.
    assert (Hget : Choices.getChoice (choices (opt this)) (pointer this)
                   = Some (m, c)).
    { unfold Choices.getChoice. rewrite (proj2 (Z.leb_le 0 _) H0).
      rewrite Hr. simpl. by rewrite Hm. }
    rewrite Hget. exists c. split; [|done].
    rewrite <- Hk. by apply filter_isReal_lookup.
Qed.

Lemma getPointed_spec_witness :
  getPointed (promptOver [disabledRow "A"; separatorRow "--"; row "B"; row "C"] 1)
  = Returns ("C", promptOver [disabledRow "A"; separatorRow "--"; row "B"; row "C"] 1).
Proof.
  destruct (getPointed_spec
              (promptOver [disabledRow "A"; separatorRow "--"; row "B"; row "C"] 1)
              (wf_new _)) as [_ H].
  destruct H as (item & Hitem & Hget).
  - discriminate.
  - unfold promptOver, Choices.realLength. simpl. lia.
  - simpl in Hitem. injection Hitem as <-. exact Hget.
Defined.

(** ** The row under the pointer *)

Lemma append_assoc (s1 s2 s3 : string) :
  (s1 +:+ s2) +:+ s3 = s1 +:+ (s2 +:+ s3).
Proof.
  induction s1 as [|c s1 IH]; [done|].
  change (String c ((s1 +:+ s2) +:+ s3) = String c (s1 +:+ (s2 +:+ s3))).
  by rewrite IH.
Qed.

Lemma append_nil_r (s : string) : s +:+ "" = s.
Proof.
  induction s as [|c s IH]; [done|].
  change (String c (s +:+ "") = String c s). by rewrite IH.
Qed.

(** The loop of [renderChoices] appends the rows one after the other. *)
Lemma renderChoices_forEach_rows pointer (l : list Choice) :
  forall i separatorOffset output,
    renderChoices_forEach pointer l i separatorOffset output
    = output +:+ concatRows (renderChoices_rows pointer l i separatorOffset).
Proof.
  induction l as [|c l IH]; intros i off output; simpl.
  - by rewrite append_nil_r.
  - destruct (renderChoice pointer c i off) as [row off'] eqn:Hrow.
    rewrite IH, append_assoc. done.
Qed.

Lemma renderChoice_row pointer c i off :
  renderChoice pointer c i off
  = (renderedRow c (Z.of_nat i - Z.of_nat off =? pointer),
     if Choices.isReal c then off else S off).
Proof.
  unfold renderChoice, renderedRow, Choices.isReal.
  destruct (isSeparator c); [done|].
  destruct (truthy (disabled c)); [done|]. simpl.
  by destruct (_ =? _).
Qed.

(** Row [j] carries the pointer when it is navigable and as many navigable
    rows precede it as the pointer says. *)
Lemma renderChoices_rows_lookup pointer (l : list Choice) :
  forall i off j,
    renderChoices_rows pointer l i off !! j
    = (fun c => renderedRow c
         (Z.of_nat i - Z.of_nat off + Z.of_nat (realBefore l j) =? pointer))
      <$> l !! j.
Proof.
  unfold realBefore.
  induction l as [|c l IH]; intros i off j; simpl; [done|].
  rewrite renderChoice_row. destruct j as [|j]; simpl.
  - by rewrite Z.add_0_r.
  - rewrite IH. destruct (l !! j) as [c'|]; [|done]; simpl.
    do 2 f_equal. destruct (Choices.isReal c); simpl; f_equal; lia.
Qed.

Lemma getChoice_realBefore cs pointer j c :
  Choices.wf cs ->
  Choices.choices cs !! j = Some c -> Choices.isReal c = true ->
  Z.of_nat (realBefore (Choices.choices cs) j) = pointer ->
  Choices.getChoice cs pointer = Some (j, c).
Proof.
  intros Hwf Hj Hc <-. unfold Choices.getChoice.
  rewrite (proj2 (Z.leb_le 0 _)) by lia. rewrite Nat2Z.id, Hwf.
  rewrite (proj2 (real_refs_lookup _ 0 _ j)); [|by exists j, c].
  simpl. by rewrite Hj.
Qed.

Lemma renderChoices_rows_concat cs pointer :
  renderChoices cs pointer
  = replace_trailing_newline
      (concatRows (renderChoices_rows pointer (Choices.choices cs) 0 0)).
Proof. unfold renderChoices. by rewrite renderChoices_forEach_rows. Qed.

Lemma incrementListIndex_in_range current dir o :
  0 <= current < Z.of_nat (Choices.realLength (choices o)) ->
  0 <= incrementListIndex current dir o
    < Z.of_nat (Choices.realLength (choices o)).
Proof.
  intros H. unfold incrementListIndex.
  destruct (Z.eqb_spec (Z.of_nat (Choices.realLength (choices o))) 0); [lia|].
  destruct dir, (loop o) as [[]|];
    repeat match goal with
           | |- context [if ?a <? ?b then _ else _] => destruct (Z.ltb_spec a b)
           end; lia.
Qed.

Lemma getChoice_in_range cs index :
  Choices.wf cs ->
  0 <= index < Z.of_nat (Choices.realLength cs) ->
  exists r item,
    Choices.getChoice cs index = Some (r, item) /\ Choices.isReal item = true.
Proof.
  intros Hwf [H0 Hlt].
  destruct (lookup_lt_is_Some_2 (Choices.realChoices cs) (Z.to_nat index))
    as [r Hr].
  { unfold Choices.realLength in Hlt. lia. }
  pose proof Hr as Hr'. rewrite Hwf in Hr'.
  apply real_refs_lookup in Hr' as (m & c & -> & Hm & Hc & _).
  exists m, c. split; [|done]. unfold Choices.getChoice.
  rewrite (proj2 (Z.leb_le 0 _) H0), Hr. simpl. by rewrite Hm.
Qed.

(** C4 (amended): the pointer is a position among the navigable rows,
    which are neither separators nor disabled.  The row that
    [getChoice(pointer)] returns is never a separator and never disabled,
    and from a position among the navigable rows the arrow keys lead to
    such a position again; [renderChoices] prints a disabled row and a
    separator without the pointer whatever the pointer is, and marks a
    navigable row exactly when it is the one [getChoice(pointer)] returns.
    For the rows [A (disabled), B, C] with the pointer at 1, which is C,
    the up key moves the pointer to 0, which rests on B. *)
Theorem pointer_rests_on_navigable (o : Options) (p : Z) :
  Choices.wf (choices o) ->
  (forall r item,
     Choices.getChoice (choices o) p = Some (r, item) ->
     isSeparator item = false /\ truthy (disabled item) = false) /\
  (forall dir,
     0 <= p < Z.of_nat (Choices.realLength (choices o)) ->
     exists r item,
       Choices.getChoice (choices o) (incrementListIndex p dir o)
       = Some (r, item) /\
       isSeparator item = false /\ truthy (disabled item) = false) /\
  (forall j,
     renderChoices_rows p (Choices.choices (choices o)) 0 0 !! j
     = (fun c => renderedRow c
          (Z.of_nat (realBefore (Choices.choices (choices o)) j) =? p))
       <$> Choices.choices (choices o) !! j) /\
  (forall j c,
     Choices.choices (choices o) !! j = Some c -> Choices.isReal c = true ->
     (Z.of_nat (realBefore (Choices.choices (choices o)) j) = p <->
      Choices.getChoice (choices o) p = Some (j, c))) /\
  (exists this',
     onUpKey (promptOver [disabledRow "A"; row "B"; row "C"] 1)
     = Returns (tt, this') /\
     pointer this' = 0 /\
     Choices.getChoice (choices (opt this')) (pointer this')
     = Some (1%nat, row "B") /\
     getPointed this' = Returns ("B", this')).
Proof.
  intros Hwf.
  assert (Hreal : forall item, Choices.isReal item = true ->
            isSeparator item = false /\ truthy (disabled item) = false).
  { intros item H. unfold Choices.isReal in H.
    apply andb_true_iff in H as [H1 H2]. by apply negb_true_iff in H1, H2. }
  split; [|split; [|split; [|split]]].
  - intros r item Hget. apply Hreal.
    by destruct (wf_getChoice _ _ _ _ Hwf Hget).
  - intros dir Hp.
    destruct (getChoice_in_range _ _ Hwf (incrementListIndex_in_range p dir o Hp))
      as (r & item & Hget & Hitem).
    exists r, item. split; [done|]. by apply Hreal.
  - intros j. rewrite renderChoices_rows_lookup.
    destruct (Choices.choices (choices o) !! j); [|done]; simpl. do 2 f_equal.
  - intros j c Hj Hc. split.
    + by apply getChoice_realBefore.
    + intros Hget. destruct (wf_getChoice _ _ _ _ Hwf Hget) as [_ Hk].
      apply getChoice_Some in Hget as (H0 & _). lia.
  - eexists. split; [vm_compute; reflexivity|]. split; [reflexivity|].
    split; reflexivity.
Qed.

Lemma pointer_rests_on_navigable_witness :
  isSeparator (row "B") = false /\ truthy (disabled (row "B")) = false.
Proof.
  exact (proj1 (pointer_rests_on_navigable
                  (opt (promptOver [disabledRow "A"; row "B"; row "C"] 0)) 0
                  (wf_new _))
               1%nat (row "B") eq_refl).
Defined.

(** C4 as stated fails: with the rows [A (disabled), B, C] and the pointer
    at 1, the up key leaves the pointer at 0, and position 0 is row B: the
    disabled row A is printed without the pointer, B carries it, and
    [getChoice] returns B. *)
Lemma up_key_skips_disabled_row :
  exists this',
    onUpKey (promptOver [disabledRow "A"; row "B"; row "C"] 1)
    = Returns (tt, this') /\
    pointer this' = 0 /\
    renderChoices_rows (pointer this') (Choices.choices (choices (opt this'))) 0 0
    = [renderedRow (disabledRow "A") false;
       renderedRow (row "B") true;
       renderedRow (row "C") false] /\
    Choices.getChoice (choices (opt this')) (pointer this')
    <> Some (0%nat, disabledRow "A") /\
    Choices.getChoice (choices (opt this')) (pointer this')
    = Some (1%nat, row "B").
Proof.
  eexists. split; [vm_compute; reflexivity|]. split; [reflexivity|].
  split; [reflexivity|]. split; [discriminate|reflexivity].
Qed.

(** ** What the rendering depends on *)

(** C8 as stated fails: the choice list, the pointer and the status do not
    determine the output.  Two sessions over the same list, one ended by
    a submit and one by a backspace, are both answered with the same list
    and pointer, and render differently; and in one state, a call with a
    validation message and a call without one render differently. *)
Lemma render_not_determined_by_list_pointer_status :
  exists this ss1 ss2,
    constructor wholeText
      (question [row "A"; row "B"] (default_array [VString "A"]))
    = Returns this /\
    dispatch events.line {| prompt := this; success := false |} = Returns ss1 /\
    dispatch events.backspaceKey {| prompt := this; success := false |}
    = Returns ss2 /\
    choices (opt (prompt ss1)) = choices (opt (prompt ss2)) /\
    pointer (prompt ss1) = pointer (prompt ss2) /\
    status (prompt ss1) = status (prompt ss2) /\
    result_value (renderFrame None (prompt ss1))
    <> result_value (renderFrame None (prompt ss2)) /\
    result_value (renderFrame None this)
    <> result_value (renderFrame (Some "Pick a row") this).
Proof.
  eexists _, _, _. split; [reflexivity|].
  split; [vm_compute; reflexivity|]. split; [vm_compute; reflexivity|].
  split; [reflexivity|]. split; [reflexivity|]. split; [reflexivity|].
  split; intros H; vm_compute in H; discriminate H.
Qed.


Lemma setChoice_clearChoice_out_of_range_witness :
  setChoice 1 (promptOver [row "A"; disabledRow "B"] 0)
  = Returns (tt, promptOver [row "A"; disabledRow "B"] 0) /\
  clearChoice 1 (promptOver [row "A"; disabledRow "B"] 0)
  = Returns (tt, promptOver [row "A"; disabledRow "B"] 0).
Proof.
  apply setChoice_clearChoice_out_of_range.
  right. unfold promptOver, Choices.realLength. simpl. lia.
Defined.

(** ** The examples of the specification *)

(** Rows [A, B]: space at 0, down, space at 1 leaves only B checked. *)
Example space_moves_the_selection :
  exists this',
    (onSpaceKey;; onDownKey;; onSpaceKey) (promptOver [row "A"; row "B"] 0)
    = Returns (tt, this') /\
    checked <$> Choices.choices (choices (opt this')) = [Some false; Some true] /\
    selected this' = "B" /\ pointer this' = 1.
Proof. eexists. split; [vm_compute; reflexivity|]. by repeat split. Qed.

(** Rows [A, B, C] with the default loop: down twice reaches 2, once more
    wraps to 0. *)
Example down_wraps_around :
  incrementListIndex 0 down (opt (promptOver [row "A"; row "B"; row "C"] 0)) = 1 /\
  incrementListIndex 1 down (opt (promptOver [row "A"; row "B"; row "C"] 0)) = 2 /\
  incrementListIndex 2 down (opt (promptOver [row "A"; row "B"; row "C"] 0)) = 0.
Proof. by repeat split. Qed.

(** No row checked, submit: the cancellation sentinel is delivered. *)
Example submit_with_nothing_checked :
  exists ss',
    dispatch events.line
      {| prompt := promptOver [row "A"; row "B"] 0; success := false |}
    = Returns ss' /\
    delivered (prompt ss') = [cancelString].
Proof. eexists. split; [vm_compute; reflexivity|]. reflexivity. Qed.

(** ** A session never throws *)

Lemma onLine_returns this :
  exists ok this',
    onLine this = Returns (ok, this') /\
    opt this' = opt this /\ selection this' <> None.
Proof.
  unfold onLine, getCurrentValue. munfold. simpl.
  destruct (validate _ _); simpl.
  - unfold onEnd. munfold. simpl.
    destruct (List.length _ =? 0)%nat; simpl;
      unfold render, renderFrame; munfold; simpl; eexists _, _;
      (split; [reflexivity|]); simpl; (split; [reflexivity|discriminate]).
  - unfold onError, render, renderFrame. munfold. simpl.
    destruct (status this); simpl; eexists _, _;
      (split; [reflexivity|]); simpl; (split; [reflexivity|discriminate]).
  - unfold onError, render, renderFrame. munfold. simpl.
    destruct (status this); simpl; eexists _, _;
      (split; [reflexivity|]); simpl; (split; [reflexivity|discriminate]).
Qed.

(** From a well-formed prompt that can be rendered, as the constructor
    leaves it, every event is handled without an error and leaves such a
    prompt again. *)
Lemma dispatch_returns (e : events.t) (ss : Session) :
  Choices.wf (choices (opt (prompt ss))) -> renderable (prompt ss) ->
  exists ss',
    dispatch e ss = Returns ss' /\
    Choices.wf (choices (opt (prompt ss'))) /\ renderable (prompt ss').
Proof.
  intros Hwf Hr. unfold dispatch. destruct (success ss); [by exists ss|].
  destruct e; unfold run_handler.
  - destruct (onLine_returns (prompt ss)) as (ok & this' & -> & Hopt & Hsel).
    eexists. split; [done|]. simpl. rewrite Hopt. split; [done|by intros _].
  - destruct (onArrowKey_keeps up _ Hr) as (this' & H & Hopt & Hsel & Hst).
    unfold onUpKey. rewrite H. eexists. split; [done|]. simpl.
    unfold renderable. by rewrite Hopt, Hsel, Hst.
  - destruct (onArrowKey_keeps down _ Hr) as (this' & H & Hopt & Hsel & Hst).
    unfold onDownKey. rewrite H. eexists. split; [done|]. simpl.
    unfold renderable. by rewrite Hopt, Hsel, Hst.
  - destruct (onSpaceKey_single _ Hwf Hr) as (this' & -> & Hwf' & Hr' & _).
    by eexists.
  - destruct (onEnd_cancel (prompt ss)) as (m & b & H).
    unfold onBackspaceKeyKey. rewrite H. eexists. split; [done|].
    split; [done|by intros _].
Qed.

(** * Further properties of the prompt *)

(** ** Construction *)

(** X1: the constructor throws the parameter error exactly when the
    question has no choices.  Otherwise it returns a prompt with the
    pointer at 0, an empty selected label and no default left; the rows
    are the given ones in order, and a row is checked afterwards exactly
    when it was checked before or its value occurs in an array default (a
    single default value checks nothing). *)
Theorem constructor_spec (newPaginator : bool -> Paginator) (q : Question) :
  match q_choices q with
  | None => constructor newPaginator q = Throws (ParamError "choices")
  | Some l =>
      exists this,
        constructor newPaginator q = Returns this /\
        pointer this = 0 /\ selected this = "" /\
        default (opt this) = default_none /\
        status this = active /\ trace this = [] /\
        Choices.wf (choices (opt this)) /\
        set_checked false <$> Choices.choices (choices (opt this))
        = set_checked false <$> l /\
        isChecked <$> Choices.choices (choices (opt this))
        = (fun c => isChecked c ||
                    match q_default q with
                    | default_array vs => bool_decide (value c ∈ vs)
                    | _ => false
                    end) <$> l
  end.
Proof.
  destruct (q_choices q) as [l|] eqn:Hl.
  - destruct (constructor newPaginator q) as [this|e] eqn:Hc.
    + exists this. split; [done|].
      destruct (constructor_wf _ _ _ Hc) as [Hwf _].
      unfold constructor in Hc. rewrite Hl in Hc. injection Hc as <-. simpl.
      repeat split; try done.
      * destruct (q_default q) as [| |vs]; simpl; [done..|].
        rewrite <- list_fmap_compose. apply list_fmap_ext. intros j c _. simpl.
        unfold checkDefault, inDefault. by case_bool_decide.
      * destruct (q_default q) as [| |vs]; simpl;
          [apply list_fmap_ext; intros j c _; by rewrite orb_false_r..|].
        rewrite <- list_fmap_compose. apply list_fmap_ext. intros j c _. simpl.
        unfold checkDefault, inDefault. case_bool_decide; simpl;
          [by rewrite orb_true_r|by rewrite orb_false_r].
    + unfold constructor in Hc. by rewrite Hl in Hc.
  - unfold constructor. by rewrite Hl.
Qed.

(** ** Replacing the list *)

Lemma fold_push (values : list Choice) : forall cs,
  Choices.wf cs ->
  fold_left (fun cs v => Choices.push v cs) values cs
  = Choices.new (Choices.choices cs ++ values).
Proof.
  induction values as [|v values IH]; intros cs Hwf; simpl.
  - rewrite app_nil_r. destruct cs as [l refs]. unfold Choices.wf in Hwf.
    simpl in Hwf. by subst.
  - rewrite IH by apply wf_push. unfold Choices.push at 1. simpl.
    by rewrite <- app_assoc.
Qed.

(** X2: [update(values, pointed, selected)] never throws on a prompt that
    can be rendered.  It leaves exactly the given rows, in order, moves
    the pointer to [pointed] and renders once.  When [selected] is a
    position among the navigable new rows, that row is checked and its name
    becomes the selected label; when it is -1 or no such position, the
    rows are exactly the given ones and the selected label keeps the value
    it had with the old list. *)
Theorem update_replaces_list (values : list Choice) (pointed sel : Z)
    (this : RadioPrompt) :
  renderable this ->
  exists this' message,
    update values pointed sel this = Returns (tt, this') /\
    pointer this' = pointed /\
    Choices.realChoices (choices (opt this')) = Choices.real_refs 0 values /\
    match (if sel =? -1 then None else Choices.getChoice (Choices.new values) sel) with
    | Some (r, item) =>
        Choices.choices (choices (opt this')) = alter (set_checked true) r values /\
        selected this' = name item
    | None =>
        Choices.choices (choices (opt this')) = values /\
        selected this' = selected this
    end /\
    trace this' = trace this ++ [screen_render message ""] /\
    status this' = status this /\ selection this' = selection this.
Proof.
  intros Hr. unfold update, removeAll, mbind, M_bind, modify. simpl.
  rewrite (fold_push values (Choices.mk [] [])) by done. simpl.
  set (this1 := set_pointer pointed _).
  destruct (sel =? -1) eqn:Hsel.
  - unfold mret, M_ret.
    destruct (render_returns None this1 Hr) as (m & b & Hf & ->).
    assert (b = "") as ->.
    { revert Hf. unfold renderFrame. munfold.
      destruct (status this1); [|destruct (selection this1)]; by intros [= _ <-]. }
    by exists (add_effect (screen_render m "") this1), m.
  - destruct (Choices.getChoice (Choices.new values) sel) as [[r item]|] eqn:Hget.
    + rewrite (setChoice_Some this1 sel r item Hget).
      set (this2 := set_selected _ _).
      destruct (render_returns None this2 Hr) as (m & b & Hf & ->).
      assert (b = "") as ->.
      { revert Hf. unfold renderFrame. munfold.
        destruct (status this2); [|destruct (selection this2)]; by intros [= _ <-]. }
      by exists (add_effect (screen_render m "") this2), m.
    + rewrite (setChoice_None this1 sel Hget).
      destruct (render_returns None this1 Hr) as (m & b & Hf & ->).
      assert (b = "") as ->.
      { revert Hf. unfold renderFrame. munfold.
        destruct (status this1); [|destruct (selection this1)]; by intros [= _ <-]. }
      by exists (add_effect (screen_render m "") this1), m.
Qed.

Lemma update_replaces_list_witness :
  exists this',
    result_value
      (update [row "X"; disabledRow "Y"; row "Z"] 1 1
              (set_selected "B" (promptOver [row "A"; row "B"] 0)))
    = Returns tt /\
    update [row "X"; disabledRow "Y"; row "Z"] 1 1
           (set_selected "B" (promptOver [row "A"; row "B"] 0))
    = Returns (tt, this') /\
    checked <$> Choices.choices (choices (opt this')) = [None; None; Some true] /\
    selected this' = "Z".
Proof.
  destruct (update_replaces_list [row "X"; disabledRow "Y"; row "Z"] 1 1
              (set_selected "B" (promptOver [row "A"; row "B"] 0)))
    as (this' & m & Hrun & _ & _ & Hsel & _).
  - intros H. discriminate H.
  - exists this'. rewrite Hrun. simpl in Hsel. destruct Hsel as [-> ->].
    by repeat split.
Defined.

(** ** Helper facts on rendering and on the space key *)

Lemma render_None_returns this :
  renderable this ->
  exists message,
    renderFrame None this = Returns ((message, ""), this) /\
    render None this = Returns (tt, add_effect (screen_render message "") this).
Proof.
  intros Hr. destruct (render_returns None this Hr) as (m & b & Hf & Hrender).
  assert (b = "") as ->.
  { revert Hf. unfold renderFrame. munfold.
    destruct (status this); [|destruct (selection this)]; by intros [= _ <-]. }
  by exists m.
Qed.

Lemma getChoice_cleared cs index :
  Choices.getChoice
    {| Choices.choices := imap (clearedRow (Choices.realChoices cs)) (Choices.choices cs);
       Choices.realChoices := Choices.realChoices cs |} index
  = (fun ri => (ri.1, clearedRow (Choices.realChoices cs) ri.1 ri.2))
    <$> Choices.getChoice cs index.
Proof.
  unfold Choices.getChoice. simpl. destruct (0 <=? index); [|done].
  destruct (Choices.realChoices cs !! Z.to_nat index) as [r|]; [|done]; simpl.
  rewrite list_lookup_imap. by destruct (Choices.choices cs !! r).
Qed.

Lemma name_clearedRow refs j c : name (clearedRow refs j c) = name c.
Proof. unfold clearedRow. by case_bool_decide. Qed.

Lemma set_checked_clearedRow b refs j c :
  set_checked b (clearedRow refs j c) = set_checked b c.
Proof. unfold clearedRow. by case_bool_decide. Qed.

Lemma onSpaceKey_returns this :
  renderable this ->
  exists message,
    onSpaceKey this
    = Returns (tt, add_effect (screen_render message "") (afterSpace this)).
Proof.
  intros Hr. unfold onSpaceKey, mbind, M_bind, get.
  rewrite clearAllChoices_returns. simpl.
  set (this1 := set_selected "" _).
  pose proof (getChoice_cleared (choices (opt this)) (pointer this)) as Hget.
  unfold afterSpace.
  destruct (Choices.getChoice (choices (opt this)) (pointer this))
    as [[r item]|]; simpl in Hget.
  - rewrite (setChoice_Some this1 _ _ _ Hget). rewrite name_clearedRow.
    set (this2 := set_selected (name item) _).
    assert (Hr2 : renderable this2) by exact Hr.
    destruct (render_None_returns this2 Hr2) as (m & _ & ->). by exists m.
  - rewrite (setChoice_None this1 _ Hget).
    assert (Hr1 : renderable this1) by exact Hr.
    destruct (render_None_returns this1 Hr1) as (m & _ & ->). by exists m.
Qed.

(** ** Emptying the list *)

(** X3: [removeAll] leaves no row and no navigable row but keeps the
    pointer and the selected label as they were; on the emptied list
    [getPointed] returns the empty string, [setChoice] and [clearChoice]
    do nothing for every index, and [getCurrentValue] returns no value. *)
Theorem removeAll_empties (this : RadioPrompt) (index : Z) :
  exists this0,
    removeAll this = Returns (tt, this0) /\
    Choices.choices (choices (opt this0)) = [] /\
    Choices.realLength (choices (opt this0)) = 0%nat /\
    pointer this0 = pointer this /\ selected this0 = selected this /\
    getPointed this0 = Returns ("", this0) /\
    setChoice index this0 = Returns (tt, this0) /\
    clearChoice index this0 = Returns (tt, this0) /\
    result_value (getCurrentValue this0) = Returns [].
Proof.
  eexists. split; [reflexivity|]. simpl.
  assert (Hnone : forall this0,
            Choices.realChoices (choices (opt this0)) = [] ->
            Choices.getChoice (choices (opt this0)) index = None).
  { intros this0 H0. unfold Choices.getChoice. rewrite H0.
    by destruct (0 <=? index). }
  repeat split.
  - by apply setChoice_None, Hnone.
  - by apply clearChoice_None, Hnone.
Qed.

(** ** The name under the pointer and the selected label *)

(** X4: when the list has rows but the pointer is no position among the
    navigable ones (negative, or at or past [realLength], as always when
    every row is a separator or disabled), [getPointed] throws a
    [TypeError]. *)
Theorem getPointed_throws (this : RadioPrompt) :
  Choices.choices (choices (opt this)) <> [] ->
  pointer this < 0 \/
  Z.of_nat (Choices.realLength (choices (opt this))) <= pointer this ->
  getPointed this = Throws TypeError.
Proof.
  intros Hne Hp. unfold getPointed, Choices.length. munfold.
  rewrite (getChoice_out_of_range _ _ Hp).
  destruct (Choices.choices (choices (opt this))); [done|].
  by rewrite (proj2 (Z.ltb_lt 0 _)) by (simpl; lia).
Qed.

Lemma getPointed_throws_witness :
  getPointed (promptOver [separatorRow "--"; disabledRow "A"] 0)
  = Throws TypeError.
Proof.
  apply getPointed_throws; [discriminate|].
  right. unfold promptOver, Choices.realLength. simpl. lia.
Defined.

(** X5: with the pointer on a navigable row, the space key makes the
    selected label the name that [getPointed] returns: [getSelected] after
    the space key and [getPointed] before it give the same string. *)
Theorem space_selects_pointed (this : RadioPrompt) :
  Choices.wf (choices (opt this)) -> renderable this ->
  0 <= pointer this < Z.of_nat (Choices.realLength (choices (opt this))) ->
  exists label,
    getPointed this = Returns (label, this) /\
    result_value ((onSpaceKey;; getSelected) this) = Returns label.
Proof.
  intros Hwf Hr Hp.
  destruct (getChoice_in_range _ _ Hwf Hp) as (r & item & Hget & _).
  exists (name item). split.
  - unfold getPointed, Choices.length. munfold. rewrite Hget.
    apply getChoice_Some in Hget as (_ & _ & Hitem).
    destruct (Choices.choices (choices (opt this))); [done|].
    by rewrite (proj2 (Z.ltb_lt 0 _)) by (simpl; lia).
  - destruct (onSpaceKey_returns this Hr) as (m & Hspace).
    unfold mbind, M_bind. rewrite Hspace. unfold afterSpace. by rewrite Hget.
Qed.

Lemma space_selects_pointed_witness :
  exists label,
    getPointed (promptOver [disabledRow "A"; row "B"; row "C"] 1)
    = Returns (label, promptOver [disabledRow "A"; row "B"; row "C"] 1) /\
    result_value
      ((onSpaceKey;; getSelected) (promptOver [disabledRow "A"; row "B"; row "C"] 1))
    = Returns label.
Proof.
  apply space_selects_pointed.
  - apply wf_new.
  - intros H. discriminate H.
  - unfold promptOver, Choices.realLength. simpl. lia.
Defined.

(** ** The space key selects, it does not toggle *)

Lemma clearedRow_idem refs j c :
  clearedRow refs j (clearedRow refs j c) = clearedRow refs j c.
Proof. unfold clearedRow. by case_bool_decide. Qed.

Lemma afterSpace_idem this : afterSpace (afterSpace this) = afterSpace this.
Proof.
  unfold afterSpace.
  pose proof (getChoice_cleared (choices (opt this)) (pointer this)) as Hcl.
  destruct (Choices.getChoice (choices (opt this)) (pointer this))
    as [[r item]|] eqn:Hget; simpl in *.
  - apply getChoice_Some in Hget as (H0 & Hr & Hitem).
    assert (Hget1 : Choices.getChoice
              {| Choices.choices :=
                   alter (set_checked true) r
                     (imap (clearedRow (Choices.realChoices (choices (opt this))))
                           (Choices.choices (choices (opt this))));
                 Choices.realChoices := Choices.realChoices (choices (opt this)) |}
              (pointer this)
            = Some (r, set_checked true item)).
    { unfold Choices.getChoice. rewrite (proj2 (Z.leb_le 0 _) H0). simpl.
      rewrite Hr. simpl. rewrite list_lookup_alter_eq, list_lookup_imap, Hitem.
      simpl. by rewrite set_checked_clearedRow. }
    rewrite Hget1. simpl.
    assert (Hrows :
      alter (set_checked true) r
        (imap (clearedRow (Choices.realChoices (choices (opt this))))
           (alter (set_checked true) r
              (imap (clearedRow (Choices.realChoices (choices (opt this))))
                 (Choices.choices (choices (opt this))))))
      = alter (set_checked true) r
          (imap (clearedRow (Choices.realChoices (choices (opt this))))
             (Choices.choices (choices (opt this))))).
    { apply list_eq. intros j. destruct (decide (r = j)) as [->|Hne].
      - rewrite !list_lookup_alter_eq, !list_lookup_imap, list_lookup_alter_eq,
          list_lookup_imap.
        destruct (Choices.choices (choices (opt this)) !! j); [|done]; simpl.
        by rewrite !set_checked_clearedRow.
      - rewrite !list_lookup_alter_ne, !list_lookup_imap, list_lookup_alter_ne,
          list_lookup_imap by done.
        destruct (Choices.choices (choices (opt this)) !! j); [|done]; simpl.
        by rewrite clearedRow_idem. }
    unfold set_selected, set_choices, set_opt, set_opt_choices. simpl.
    by rewrite Hrows.
  - rewrite Hcl. simpl.
    assert (Hrows :
      imap (clearedRow (Choices.realChoices (choices (opt this))))
        (imap (clearedRow (Choices.realChoices (choices (opt this))))
           (Choices.choices (choices (opt this))))
      = imap (clearedRow (Choices.realChoices (choices (opt this))))
          (Choices.choices (choices (opt this)))).
    { apply list_eq. intros j. rewrite !list_lookup_imap.
      destruct (Choices.choices (choices (opt this)) !! j); [|done]; simpl.
      by rewrite clearedRow_idem. }
    unfold set_selected, set_choices, set_opt, set_opt_choices. simpl.
    by rewrite Hrows.
Qed.

Lemma afterSpace_add_effect e this :
  afterSpace (add_effect e this) = add_effect e (afterSpace this).
Proof.
  unfold afterSpace. simpl.
  by destruct (Choices.getChoice (choices (opt this)) (pointer this)) as [[r item]|].
Qed.

(** X6: pressing the space key a second time on the same row changes
    nothing but the screen: the list, the selected label and the pointer
    are as the first press left them, and the row under the pointer, when
    there is one, is checked after either press. *)
Theorem space_twice (this : RadioPrompt) :
  renderable this ->
  exists this1 this2,
    onSpaceKey this = Returns (tt, this1) /\
    onSpaceKey this1 = Returns (tt, this2) /\
    opt this2 = opt this1 /\ selected this2 = selected this1 /\
    pointer this2 = pointer this1 /\
    (forall r item,
       Choices.getChoice (choices (opt this1)) (pointer this1) = Some (r, item) ->
       isChecked item = true /\ selected this1 = name item).
Proof.
  intros Hr. destruct (onSpaceKey_returns this Hr) as (m1 & H1).
  set (this1 := add_effect (screen_render m1 "") (afterSpace this)) in *.
  assert (Hr1 : renderable this1).
  { unfold this1, afterSpace.
    by destruct (Choices.getChoice (choices (opt this)) (pointer this)) as [[r item]|]. }
  destruct (onSpaceKey_returns this1 Hr1) as (m2 & H2).
  exists this1, (add_effect (screen_render m2 "") (afterSpace this1)).
  split; [done|]. split; [done|].
  assert (Hidem : afterSpace this1 = this1).
  { unfold this1. by rewrite afterSpace_add_effect, afterSpace_idem. }
  rewrite Hidem. split; [done|]. split; [done|]. split; [done|].
  intros r item. unfold this1, afterSpace.
  pose proof (getChoice_cleared (choices (opt this)) (pointer this)) as Hcl.
  destruct (Choices.getChoice (choices (opt this)) (pointer this))
    as [[r0 item0]|] eqn:Hget; simpl in *.
  - apply getChoice_Some in Hget as (H0 & Hr0 & Hitem0).
    unfold Choices.getChoice. rewrite (proj2 (Z.leb_le 0 _) H0). simpl.
    rewrite Hr0. simpl.
    rewrite list_lookup_alter_eq, list_lookup_imap, Hitem0. simpl.
    intros [= <- <-]. split; [done|]. simpl. by rewrite name_clearedRow.
  - by rewrite Hcl.
Qed.

Lemma space_twice_witness :
  exists this1 this2,
    onSpaceKey (promptOver [row "A"; separatorRow "--"; row "B"] 1)
    = Returns (tt, this1) /\
    onSpaceKey this1 = Returns (tt, this2) /\
    opt this2 = opt this1 /\ selected this2 = selected this1.
Proof.
  destruct (space_twice (promptOver [row "A"; separatorRow "--"; row "B"] 1))
    as (this1 & this2 & H1 & H2 & Hopt & Hsel & _).
  - intros H. discriminate H.
  - by exists this1, this2.
Defined.

(** ** Setting and clearing one row *)

(** X7: on a navigable position, [setChoice] followed by [clearChoice] of
    the same index leaves that row unchecked and the selected label empty,
    whatever the label was before, and changes nothing else. *)
Theorem setChoice_then_clearChoice (this : RadioPrompt) (index : Z) r item :
  Choices.getChoice (choices (opt this)) index = Some (r, item) ->
  (setChoice index;; clearChoice index) this
  = Returns (tt,
      set_selected ""
        (set_choices (Choices.update r (set_checked false) (choices (opt this)))
                     this)).
Proof.
  intros Hget. unfold mbind, M_bind. rewrite (setChoice_Some _ _ _ _ Hget).
  set (this1 := set_selected (name item) _).
  assert (Hget1 : Choices.getChoice (choices (opt this1)) index
                  = Some (r, set_checked true item)).
  { apply getChoice_Some in Hget as (H0 & Hr & Hitem).
    unfold Choices.getChoice. rewrite (proj2 (Z.leb_le 0 _) H0). simpl.
    rewrite Hr. simpl. by rewrite list_lookup_alter_eq, Hitem. }
  rewrite (clearChoice_Some _ _ _ _ Hget1). simpl. rewrite String.eqb_refl.
  unfold set_selected, set_choices, set_opt, set_opt_choices, Choices.update.
  simpl. do 4 f_equal. by rewrite list_alter_alter_eq.
Qed.

Lemma setChoice_then_clearChoice_witness :
  exists this',
    (setChoice 1;; clearChoice 1)
      (set_selected "A" (promptOver [set_checked true (row "A"); row "B"] 0))
    = Returns (tt, this') /\
    selected this' = "" /\
    checked <$> Choices.choices (choices (opt this')) = [Some true; Some false].
Proof.
  eexists. split.
  - apply (setChoice_then_clearChoice _ 1 1%nat (row "B")). reflexivity.
  - by split.
Defined.

(** ** Keys, the first frame and the error line *)

Lemma renderable_afterSpace this : renderable this -> renderable (afterSpace this).
Proof.
  unfold afterSpace.
  by destruct (Choices.getChoice (choices (opt this)) (pointer this)) as [[r item]|].
Qed.

Lemma delivered_afterSpace this : delivered (afterSpace this) = delivered this.
Proof.
  unfold afterSpace.
  by destruct (Choices.getChoice (choices (opt this)) (pointer this)) as [[r item]|].
Qed.

Lemma press_returns (k : Key) this :
  renderable this ->
  exists this',
    press k this = Returns (tt, this') /\ renderable this' /\
    delivered this'
    = delivered this ++ match k with key_backspace => [cancelString] | _ => [] end.
Proof.
  intros Hr. destruct k; simpl.
  - unfold onUpKey, mbind, M_bind, modify.
    set (this1 := set_pointer _ this).
    destruct (render_None_returns this1 Hr) as (m & _ & ->).
    eexists. split; [done|]. split; [done|].
    by rewrite delivered_add_effect.
  - unfold onDownKey, mbind, M_bind, modify.
    set (this1 := set_pointer _ this).
    destruct (render_None_returns this1 Hr) as (m & _ & ->).
    eexists. split; [done|]. split; [done|].
    by rewrite delivered_add_effect.
  - destruct (onSpaceKey_returns this Hr) as (m & ->).
    eexists. split; [done|]. split; [by apply renderable_afterSpace|].
    by rewrite delivered_add_effect, delivered_afterSpace.
  - destruct (onEnd_cancel this) as (m & b & H).
    unfold onBackspaceKeyKey. rewrite H. eexists. split; [done|].
    split; [by intros _|].
    rewrite !delivered_add_effect. simpl. by rewrite !app_nil_r.
Qed.

(** X8: from a prompt that can be rendered, every sequence of the up,
    down, space and backspace handlers returns without an error, and what
    reaches the completion callback is the cancellation sentinel once for
    each backspace and nothing else: no key ever delivers a list of
    answers, and a backspace repeated delivers the sentinel again. *)
Theorem keys_deliver_only_cancel (keys : list Key) (this : RadioPrompt) :
  renderable this ->
  exists this',
    pressAll keys this = Returns (tt, this') /\
    delivered this'
    = delivered this ++ replicate (backspaces keys) cancelString.
Proof.
  revert this. induction keys as [|k keys IH]; intros this Hr; simpl.
  - exists this. by rewrite app_nil_r.
  - destruct (press_returns k this Hr) as (this1 & H1 & Hr1 & Hd1).
    destruct (IH this1 Hr1) as (this' & H' & Hd').
    exists this'. unfold mbind, M_bind. rewrite H1. split; [done|].
    rewrite Hd', Hd1, <- app_assoc. by destruct k.
Qed.

Lemma keys_deliver_only_cancel_witness :
  exists this',
    pressAll [key_down; key_space; key_backspace; key_up; key_backspace]
             (promptOver [row "A"; row "B"] 0)
    = Returns (tt, this') /\
    delivered this' = [cancelString; cancelString].
Proof.
  destruct (keys_deliver_only_cancel
              [key_down; key_space; key_backspace; key_up; key_backspace]
              (promptOver [row "A"; row "B"] 0)) as (this' & H & Hd).
  - intros H. discriminate H.
  - by exists this'.
Defined.

(** X9: on a prompt as its constructor returns it, [_run] never throws: it
    hides the cursor, then renders one frame made of the question, the
    hint line and the paginated rows with the pointer at 0 and an empty
    bottom line, and clears [firstRender]; it delivers nothing and changes
    neither the options nor the pointer. *)
Theorem run_first_frame (newPaginator : bool -> Paginator) (q : Question)
    (this : RadioPrompt) :
  constructor newPaginator q = Returns this ->
  exists this',
    _run this = Returns (tt, this') /\
    trace this'
    = [cliCursor_hide;
       screen_render
         ((q_message q +:+ hints) +:+ nl +:+
          paginate (paginator this)
            (renderChoices (choices (opt this)) 0)
            (countLines (Choices.choices (choices (opt this))) 0
                        (indexPosition (choices (opt this)) 0) 0 - 1)
            (q_pageSize q))
         ""] /\
    firstRender this' = false /\ opt this' = opt this /\
    pointer this' = 0 /\ status this' = active.
Proof.
  unfold constructor. destruct (q_choices q) as [l|]; [|done].
  intros [= <-]. by eexists.
Qed.

Lemma run_first_frame_witness :
  exists this this',
    constructor wholeText (question [row "A"; row "B"] default_none) = Returns this /\
    _run this = Returns (tt, this') /\ firstRender this' = false.
Proof.
  eexists.
  destruct (run_first_frame wholeText (question [row "A"; row "B"] default_none)
              _ eq_refl) as (this' & H & _ & Hf & _).
  exists this'. split; [reflexivity|]. by split.
Defined.

Lemma renderFrame_bottomLine error this frame :
  renderFrame error this = Returns (frame, this) ->
  renderFrame None this = Returns ((frame.1, ""), this) /\
  frame.2 = bottomLine error.
Proof.
  unfold renderFrame. munfold.
  destruct (status this); [|destruct (selection this)]; by intros [= <-].
Qed.

(** X10: [onError] renders the same main block as a plain [render()] and
    adds only the bottom line: the validation message in red after [>> ],
    nothing when the validator answered [false] or an empty message, and
    the text [true] in red after [>> ] when it is called with a valid
    state.  It changes nothing else and delivers nothing. *)
Theorem onError_bottom_line (state : SubmitState) (this : RadioPrompt) :
  renderable this ->
  exists message,
    render None this = Returns (tt, add_effect (screen_render message "") this) /\
    onError state this
    = Returns (tt,
        add_effect
          (screen_render message
             match isValid state with
             | isValid_true => chalk.red ">> " +:+ "true"
             | isValid_false => ""
             | isValid_message "" => ""
             | isValid_message msg => chalk.red ">> " +:+ msg
             end)
          this).
Proof.
  intros Hr. unfold onError.
  set (error := match isValid state with
                | isValid_true => Some "true"
                | isValid_false => None
                | isValid_message msg => Some msg
                end).
  destruct (render_returns error this Hr) as (m & b & Hf & H).
  destruct (renderFrame_bottomLine _ _ _ Hf) as [H0 Hb]. simpl in *. subst b.
  exists m. split; [unfold render, mbind, M_bind; by rewrite H0|].
  rewrite H. subst error. do 3 f_equal.
  destruct (isValid state) as [| |[|c msg]]; done.
Qed.

Lemma onError_bottom_line_witness :
  exists message,
    onError {| isValid := isValid_message "Pick a row"; state_value := values [] |}
            (promptOver [row "A"; row "B"] 0)
    = Returns (tt,
        add_effect (screen_render message (chalk.red ">> " +:+ "Pick a row"))
                   (promptOver [row "A"; row "B"] 0)).
Proof.
  destruct (onError_bottom_line
              {| isValid := isValid_message "Pick a row"; state_value := values [] |}
              (promptOver [row "A"; row "B"] 0)) as (m & _ & H).
  - intros H. discriminate H.
  - by exists m.
Defined.

(** ** A submit with a selection *)

(** X11: a submit received while some row is checked and not disabled,
    with a validator that accepts the filtered values, ends the session:
    the filtered values of these rows, in list order, are delivered once,
    the selection holds their short labels, the last frame is the question
    followed by the short labels joined with commas, without hints and
    without the rows, and every later event leaves the session as it
    is. *)
Theorem submit_delivers_checked (ss : Session) :
  success ss = false ->
  checkedEnabled (prompt ss) <> [] ->
  validate (opt (prompt ss))
           (filter (opt (prompt ss)) (value <$> checkedEnabled (prompt ss)))
  = isValid_true ->
  exists ss',
    dispatch events.line ss = Returns ss' /\
    success ss' = true /\ status (prompt ss') = answered /\
    selection (prompt ss') = Some (short <$> checkedEnabled (prompt ss)) /\
    opt (prompt ss') = opt (prompt ss) /\
    trace (prompt ss')
    = trace (prompt ss) ++
      [screen_render
         (getQuestion (prompt ss) +:+
          chalk.cyan (join ", " (short <$> checkedEnabled (prompt ss)))) "";
       screen_done; cliCursor_show;
       done (values (filter (opt (prompt ss))
                            (value <$> checkedEnabled (prompt ss))))] /\
    (forall e, dispatch e ss' = Returns ss').
Proof.
  intros Hs Hne Hv. unfold dispatch, onLine, getCurrentValue. rewrite Hs.
  munfold. simpl. fold (checkedEnabled (prompt ss)). rewrite Hv. simpl.
  unfold onEnd. munfold. simpl.
  destruct (checkedEnabled (prompt ss)) as [|c kept] eqn:Hkept; [done|]. simpl.
  unfold renderFrame. munfold. simpl.
  eexists. split; [reflexivity|]. simpl.
  repeat split. by rewrite <- !app_assoc.
Qed.

Lemma submit_delivers_checked_witness :
  exists ss',
    dispatch events.line
      {| prompt := promptOver [row "A"; set_checked true (row "B")] 0;
         success := false |}
    = Returns ss' /\
    delivered (prompt ss') = [values [VString "B"]] /\
    selection (prompt ss') = Some ["B"].
Proof.
  destruct (submit_delivers_checked
              {| prompt := promptOver [row "A"; set_checked true (row "B")] 0;
                 success := false |})
    as (ss' & Hrun & _ & _ & Hsel & _ & Htrace & _).
  - reflexivity.
  - discriminate.
  - reflexivity.
  - exists ss'. split; [exact Hrun|]. split; [|exact Hsel].
    unfold delivered. by rewrite Htrace.
Defined.

Lemma checkedEnabled_afterSpace this r item :
  Choices.wf (choices (opt this)) ->
  Forall (fun c => isSeparator c = true -> isChecked c = false)
         (Choices.choices (choices (opt this))) ->
  Choices.getChoice (choices (opt this)) (pointer this) = Some (r, item) ->
  checkedEnabled (afterSpace this) = [set_checked true item].
Proof.
  intros Hwf Hsep Hget. unfold checkedEnabled, afterSpace. rewrite Hget. simpl.
  destruct (wf_getChoice _ _ _ _ Hwf Hget) as [Hreal _].
  apply getChoice_Some in Hget as (H0 & Hr & Hitem).
  unfold Choices.isReal in Hreal. apply andb_true_iff in Hreal as [_ Hdis].
  apply (filter_only _ _ r).
  - rewrite list_lookup_alter_eq, list_lookup_imap, Hitem. simpl.
    by rewrite set_checked_clearedRow.
  - simpl. exact Hdis.
  - intros k y Hne. rewrite list_lookup_alter_ne, list_lookup_imap by done.
    destruct (Choices.choices (choices (opt this)) !! k) as [c|] eqn:Hk;
      [|done]; simpl.
    intros [= <-]. unfold clearedRow. case_bool_decide as Hin; [done|].
    rewrite Hwf, elem_of_real_refs in Hin.
    destruct (Choices.isReal c) eqn:Hc; [destruct Hin; by exists c|].
    unfold Choices.isReal in Hc. apply andb_false_iff in Hc as [Hc|Hc].
    + apply negb_false_iff in Hc.
      rewrite Forall_lookup in Hsep. by rewrite (Hsep k c Hk Hc).
    + apply negb_false_iff in Hc. by rewrite Hc, andb_false_r.
Qed.

(** X12: with the pointer on a navigable row and no separator checked, the
    space key followed by a submit that the validator accepts delivers the
    filtered value of that one row, whatever was checked before, and the
    selection holds its short label. *)
Theorem space_then_submit (ss : Session) r item :
  success ss = false ->
  Choices.wf (choices (opt (prompt ss))) -> renderable (prompt ss) ->
  Forall (fun c => isSeparator c = true -> isChecked c = false)
         (Choices.choices (choices (opt (prompt ss)))) ->
  Choices.getChoice (choices (opt (prompt ss))) (pointer (prompt ss))
  = Some (r, item) ->
  validate (opt (prompt ss)) (filter (opt (prompt ss)) [value item])
  = isValid_true ->
  exists ss1 ss2,
    dispatch events.spaceKey ss = Returns ss1 /\
    dispatch events.line ss1 = Returns ss2 /\
    delivered (prompt ss2)
    = delivered (prompt ss) ++ [values (filter (opt (prompt ss)) [value item])] /\
    selection (prompt ss2) = Some [short item] /\
    success ss2 = true.
Proof.
  intros Hs Hwf Hr Hsep Hget Hv.
  destruct (onSpaceKey_returns _ Hr) as (m & Hspace).
  set (this1 := add_effect (screen_render m "") (afterSpace (prompt ss))) in *.
  assert (Hkept : checkedEnabled this1 = [set_checked true item])
    by exact (checkedEnabled_afterSpace _ r item Hwf Hsep Hget).
  assert (Hopt : validate (opt this1) = validate (opt (prompt ss)) /\
                 filter (opt this1) = filter (opt (prompt ss))).
  { unfold this1, afterSpace. by rewrite Hget. }
  destruct Hopt as [Hval Hfil].
  assert (Hdel : delivered this1 = delivered (prompt ss)).
  { unfold this1. rewrite delivered_add_effect, delivered_afterSpace.
    by rewrite app_nil_r. }
  clearbody this1.
  exists {| prompt := this1; success := false |}.
  unfold dispatch at 1. unfold run_handler. rewrite Hs, Hspace.
  unfold dispatch, onLine, getCurrentValue. simpl. munfold. simpl.
  fold (checkedEnabled this1). rewrite Hkept. simpl.
  rewrite Hval, Hfil, Hv. simpl.
  unfold onEnd. munfold. simpl. unfold renderFrame. munfold. simpl.
  eexists. split; [reflexivity|]. split; [reflexivity|]. simpl.
  rewrite !delivered_add_effect. simpl. rewrite !app_nil_r.
  by rewrite <- Hdel.
Qed.

Lemma space_then_submit_witness :
  exists ss1 ss2,
    dispatch events.spaceKey
      {| prompt := promptOver [set_checked true (row "A"); disabledRow "B"; row "C"] 1;
         success := false |}
    = Returns ss1 /\
    dispatch events.line ss1 = Returns ss2 /\
    delivered (prompt ss2) = [values [VString "C"]].
Proof.
  destruct (space_then_submit
              {| prompt := promptOver [set_checked true (row "A"); disabledRow "B"; row "C"] 1;
                 success := false |} 2%nat (row "C"))
    as (ss1 & ss2 & H1 & H2 & Hd & _).
  - reflexivity.
  - apply wf_new.
  - intros H. discriminate H.
  - simpl. repeat constructor; discriminate.
  - reflexivity.
  - reflexivity.
  - by exists ss1, ss2.
Defined.

(** ** The text of the choice block *)

Lemma replace_trailing_newline_nl (s : string) :
  replace_trailing_newline (s +:+ nl) = s.
Proof.
  induction s as [|c s IH]; [done|].
  change (replace_trailing_newline (String c (s +:+ nl)) = String c s).
  simpl. rewrite IH. by destruct s.
Qed.

Lemma replace_trailing_newline_app (s1 s2 : string) :
  s2 <> "" ->
  replace_trailing_newline (s1 +:+ s2) = s1 +:+ replace_trailing_newline s2.
Proof.
  intros Hne. induction s1 as [|c s1 IH]; [done|].
  change (replace_trailing_newline (String c (s1 +:+ s2))
          = String c (s1 +:+ replace_trailing_newline s2)).
  simpl. rewrite IH. destruct (s1 +:+ s2) eqn:Happ; [|done].
  destruct s1; [|done]. simpl in Happ. by subst.
Qed.

Lemma replace_trailing_newline_lines (lines : list string) :
  replace_trailing_newline (concatRows ((fun x => x +:+ nl) <$> lines))
  = join nl lines.
Proof.
  induction lines as [|x [|y lines] IH]; [done| |].
  - simpl. by rewrite append_nil_r, replace_trailing_newline_nl.
  - change (replace_trailing_newline
              ((x +:+ nl) +:+ concatRows ((fun x => x +:+ nl) <$> (y :: lines)))
            = x +:+ nl +:+ join nl (y :: lines)).
    rewrite replace_trailing_newline_app, IH, append_assoc; [done|].
    simpl. by destruct y.
Qed.

Lemma renderedRow_rowLine c b : renderedRow c b = rowLine c b +:+ nl.
Proof.
  unfold renderedRow, rowLine.
  destruct (isSeparator c); [by rewrite !append_assoc|].
  destruct (truthy (disabled c)); [by rewrite !append_assoc|].
  destruct b; [done|]. by rewrite !append_assoc.
Qed.

Lemma renderChoices_rows_imap p (l : list Choice) :
  renderChoices_rows p l 0 0
  = imap (fun j c => renderedRow c (Z.of_nat (realBefore l j) =? p)) l.
Proof.
  apply list_eq. intros j.
  rewrite renderChoices_rows_lookup, list_lookup_imap.
  destruct (l !! j); [|done]; simpl. do 2 f_equal.
Qed.

(** X13: [renderChoices] returns the lines of the rows joined by line
    feeds, with no line feed after the last one and the empty string for
    an empty list.  The line of a separator is a blank and its text, that
    of a disabled row is [ - name (reason)], that of a navigable row is its
    checkbox and name after a blank, or after the pointer and in cyan
    when as many navigable rows precede it as the pointer says. *)
Theorem renderChoices_lines (cs : Choices.t) (p : Z) :
  renderChoices cs p
  = join nl
      (imap (fun j c =>
               rowLine c (Z.of_nat (realBefore (Choices.choices cs) j) =? p))
            (Choices.choices cs)).
Proof.
  rewrite renderChoices_rows_concat, renderChoices_rows_imap.
  rewrite <- replace_trailing_newline_lines. do 2 f_equal.
  apply list_eq. intros j. rewrite list_lookup_fmap, !list_lookup_imap.
  destruct (Choices.choices cs !! j); [|done]; simpl.
  by rewrite renderedRow_rowLine.
Qed.

Lemma real_refs_length (l : list Choice) : forall i,
  List.length (Choices.real_refs i l) = List.length (List.filter Choices.isReal l).
Proof.
  induction l as [|c l IH]; intros i; simpl; [done|].
  destruct (Choices.isReal c); simpl; by rewrite IH.
Qed.

Lemma renderedRow_pointed c b :
  Choices.isReal c = true -> renderedRow c b = renderedRow c true -> b = true.
Proof.
  unfold Choices.isReal, renderedRow. intros Hreal.
  apply andb_true_iff in Hreal as [H1 H2].
  apply negb_true_iff in H1, H2. rewrite H1, H2.
  destruct b; [done|]. intros H. discriminate H.
Qed.

(** X14: [renderChoices] puts the pointer on at most one row, and on one
    exactly when the pointer is a position among the navigable rows: two
    navigable rows that are both printed with the pointer are the same
    row, and some navigable row is printed with it if and only if the
    pointer is at least 0 and less than the number of navigable rows. *)
Theorem pointer_on_one_row (l : list Choice) (p : Z) :
  (forall j1 j2 c1 c2,
     l !! j1 = Some c1 -> l !! j2 = Some c2 ->
     Choices.isReal c1 = true -> Choices.isReal c2 = true ->
     renderChoices_rows p l 0 0 !! j1 = Some (renderedRow c1 true) ->
     renderChoices_rows p l 0 0 !! j2 = Some (renderedRow c2 true) ->
     j1 = j2) /\
  ((exists j c,
      l !! j = Some c /\ Choices.isReal c = true /\
      renderChoices_rows p l 0 0 !! j = Some (renderedRow c true)) <->
   0 <= p < Z.of_nat (List.length (List.filter Choices.isReal l))).
Proof.
  assert (Hmark : forall j c,
            l !! j = Some c -> Choices.isReal c = true ->
            renderChoices_rows p l 0 0 !! j = Some (renderedRow c true) ->
            Z.of_nat (realBefore l j) = p).
  { intros j c Hj Hc. rewrite renderChoices_rows_lookup, Hj. simpl.
    intros [= H]. apply renderedRow_pointed in H; [|done]. by apply Z.eqb_eq. }
  split.
  - intros j1 j2 c1 c2 H1 H2 Hc1 Hc2 Hr1 Hr2.
    pose proof (Hmark _ _ H1 Hc1 Hr1) as Hp1.
    pose proof (Hmark _ _ H2 Hc2 Hr2) as Hp2.
    assert (Hk1 : Choices.real_refs 0 l !! realBefore l j1 = Some j1)
      by (apply real_refs_lookup; by exists j1, c1).
    assert (Hk2 : Choices.real_refs 0 l !! realBefore l j2 = Some j2)
      by (apply real_refs_lookup; by exists j2, c2).
    assert (realBefore l j1 = realBefore l j2) as Heq by lia.
    rewrite Heq in Hk1. congruence.
  - split.
    + intros (j & c & Hj & Hc & Hrow). pose proof (Hmark _ _ Hj Hc Hrow) as Hp.
      pose proof (filter_isReal_lookup l j c Hj Hc) as Hf.
      apply lookup_lt_Some in Hf. lia.
    + intros [H0 Hlt]. rewrite <- (real_refs_length l 0) in Hlt.
      destruct (lookup_lt_is_Some_2 (Choices.real_refs 0 l) (Z.to_nat p))
        as [r Hr]; [lia|].
      apply real_refs_lookup in Hr as (m & c & -> & Hm & Hc & Hk).
      exists m, c. split; [done|]. split; [done|].
      rewrite renderChoices_rows_lookup, Hm. simpl. do 2 f_equal.
      apply Z.eqb_eq. lia.
Qed.

Lemma pointer_on_one_row_witness :
  exists j c,
    [disabledRow "A"; row "B"; row "C"] !! j = Some c /\
    Choices.isReal c = true /\
    renderChoices_rows 1 [disabledRow "A"; row "B"; row "C"] 0 0 !! j
    = Some (renderedRow c true).
Proof.
  apply (proj2 (pointer_on_one_row [disabledRow "A"; row "B"; row "C"] 1)).
  simpl. lia.
Defined.

(** ** The focus line handed to the paginator *)

Lemma countLines_single (l : list Choice) : forall i ip acc,
  Forall (fun c => isSeparator c = false -> split_lines_length (name c) = 1%nat) l ->
  countLines l i ip acc
  = acc + Z.max 0 (Z.min (ip - i + 1) (Z.of_nat (List.length l))).
Proof.
  induction l as [|c l IH]; intros i ip acc Hl; simpl; [lia|].
  apply Forall_cons in Hl as [Hc Hl]. rewrite IH by done.
  destruct (Z.ltb_spec ip i); [lia|].
  destruct (isSeparator c); [lia|]. rewrite Hc by done. lia.
Qed.

Lemma indexPosition_range cs p :
  -1 <= indexPosition cs p < Z.of_nat (List.length (Choices.choices cs)).
Proof.
  unfold indexPosition.
  destruct (Choices.getChoice cs p) as [[r item]|] eqn:Hget; [|lia].
  apply getChoice_Some in Hget as (_ & _ & Hitem).
  apply lookup_lt_Some in Hitem. lia.
Qed.

(** X15: while the session is active and every row name is a single line,
    [render] hands to the paginator the text of [renderChoices] and, as
    the line to keep in view, the list index of the row under the pointer,
    separators and disabled rows above it counted, or -1 when no row is
    under the pointer; the frame is the question, the hint line unless it
    is suppressed, a line feed and the page. *)
Theorem focus_line_is_pointed_row (this : RadioPrompt) (error : option string) :
  status this = active ->
  Forall (fun c => isSeparator c = false -> split_lines_length (name c) = 1%nat)
         (Choices.choices (choices (opt this))) ->
  renderFrame error this
  = Returns
      (((if dontShowHints this then getQuestion this
         else getQuestion this +:+ hints) +:+ nl +:+
        paginate (paginator this)
          (renderChoices (choices (opt this)) (pointer this))
          (indexPosition (choices (opt this)) (pointer this))
          (pageSize (opt this)),
        bottomLine error),
       this).
Proof.
  intros Hst Hl. unfold renderFrame. munfold. rewrite Hst.
  rewrite (countLines_single _ _ _ _ Hl).
  pose proof (indexPosition_range (choices (opt this)) (pointer this)) as Hip.
  replace (0 + Z.max 0 (Z.min (indexPosition (choices (opt this)) (pointer this) - 0 + 1)
                               (Z.of_nat (List.length (Choices.choices (choices (opt this)))))) - 1)
    with (indexPosition (choices (opt this)) (pointer this)) by lia.
  by destruct (dontShowHints this).
Qed.

Lemma focus_line_is_pointed_row_witness :
  result_value
    (renderFrame None (promptOver [separatorRow "--"; disabledRow "A"; row "B"] 0))
  = Returns
      (("Pick one" +:+ hints) +:+ nl +:+
       renderChoices (Choices.new [separatorRow "--"; disabledRow "A"; row "B"]) 0,
       "").
Proof.
  rewrite (focus_line_is_pointed_row
             (promptOver [separatorRow "--"; disabledRow "A"; row "B"] 0) None).
  - reflexivity.
  - reflexivity.
  - repeat constructor.
Defined.

(** ** Inverting twice cannot be observed *)

Lemma filter_fmap_same {A} (P : A -> bool) (f : A -> A) (l : list A) :
  (forall x, P (f x) = P x) ->
  List.filter P (f <$> l) = f <$> List.filter P l.
Proof.
  intros Hf. induction l as [|x l IH]; [done|].
  rewrite fmap_cons. simpl. rewrite Hf, IH. by destruct (P x).
Qed.

Lemma renderChoice_inverse_inverse p c i off :
  renderChoice p (inverse (inverse c)) i off = renderChoice p c i off.
Proof.
  rewrite inverse_inverse. destruct (isSeparator c) eqn:Hsep; [done|].
  unfold renderChoice. simpl. unfold isSeparator in *. simpl. rewrite Hsep.
  unfold isChecked, getCheckbox. simpl. by destruct (checked c) as [[]|].
Qed.

Lemma renderChoices_forEach_fmap p (f : Choice -> Choice) (l : list Choice) :
  (forall c i off, renderChoice p (f c) i off = renderChoice p c i off) ->
  forall i off output,
    renderChoices_forEach p (f <$> l) i off output
    = renderChoices_forEach p l i off output.
Proof.
  intros Hf. induction l as [|c l IH]; intros i off output; simpl; [done|].
  rewrite Hf. destruct (renderChoice p c i off). apply IH.
Qed.

(** X16: after the inverse operation has run twice the prompt prints and
    submits as before: for every pointer [renderChoices] gives the same
    text, and [getCurrentValue] returns the same values and leaves the
    same selection, also for rows whose flag was absent and is now
    [false]. *)
Theorem inverse_twice_unobservable (this : RadioPrompt) :
  renderable this ->
  exists this',
    (onInverseKey;; onInverseKey) this = Returns (tt, this') /\
    (forall p, renderChoices (choices (opt this')) p
               = renderChoices (choices (opt this)) p) /\
    result_value (getCurrentValue this') = result_value (getCurrentValue this) /\
    (short <$> checkedEnabled this') = (short <$> checkedEnabled this).
Proof.
  intros Hr. unfold onInverseKey, mbind, M_bind, modify.
  set (this1 := set_choices _ this).
  destruct (render_None_returns this1 Hr) as (m1 & _ & ->).
  set (this2 := set_choices _ _).
  assert (Hr2 : renderable this2) by exact Hr.
  destruct (render_None_returns this2 Hr2) as (m2 & _ & ->).
  eexists. split; [done|].
  assert (Hkept :
    List.filter (fun choice => isChecked choice && negb (truthy (disabled choice)))
      (inverse <$> (inverse <$> Choices.choices (choices (opt this))))
    = (inverse ∘ inverse) <$> checkedEnabled this).
  { unfold checkedEnabled. rewrite <- list_fmap_compose.
    apply (filter_fmap_same _ (inverse ∘ inverse)). intros c. simpl.
    rewrite inverse_inverse. by destruct (isSeparator c). }
  assert (Hfield : forall c, value (inverse (inverse c)) = value c /\
                             short (inverse (inverse c)) = short c).
  { intros c. rewrite inverse_inverse. by destruct (isSeparator c). }
  split; [|split].
  - intros p. unfold renderChoices. simpl. rewrite <- list_fmap_compose.
    by rewrite (renderChoices_forEach_fmap p (inverse ∘ inverse))
      by (intros; apply renderChoice_inverse_inverse).
  - unfold getCurrentValue. munfold. simpl. rewrite Hkept.
    rewrite <- list_fmap_compose. f_equal.
    apply list_fmap_ext. intros j c _. apply Hfield.
  - unfold checkedEnabled at 1. simpl. rewrite Hkept.
    rewrite <- list_fmap_compose.
    apply list_fmap_ext. intros j c _. apply Hfield.
Qed.

Lemma inverse_twice_unobservable_witness :
  exists this',
    (onInverseKey;; onInverseKey)
      (promptOver [row "A"; separatorRow "--"; set_checked true (row "B")] 0)
    = Returns (tt, this') /\
    result_value (getCurrentValue this') = Returns [VString "B"].
Proof.
  destruct (inverse_twice_unobservable
              (promptOver [row "A"; separatorRow "--"; set_checked true (row "B")] 0))
    as (this' & H & _ & Hv & _).
  - intros H. discriminate H.
  - exists this'. split; [exact H|]. rewrite Hv. reflexivity.
Defined.

(** ** What a submit can carry *)

Lemma checkedEnabled_checkedSelectable this :
  noSeparatorChecked this -> checkedEnabled this = checkedSelectable this.
Proof.
  unfold noSeparatorChecked, checkedEnabled, checkedSelectable.
  induction 1 as [|c l Hc _ IH]; simpl; [done|]. rewrite IH.
  replace (Choices.isReal c && isChecked c)
    with (isChecked c && negb (truthy (disabled c))); [done|].
  unfold Choices.isReal. destruct (isSeparator c).
  - by rewrite Hc.
  - simpl. apply andb_comm.
Qed.

(** X17: when no separator is checked, the rows that [getCurrentValue]
    keeps are the checked Selectable rows; so while at most one Selectable
    row is checked it returns at most one value and leaves at most one
    short label in the selection. *)
Theorem getCurrentValue_single (this : RadioPrompt) :
  noSeparatorChecked this -> atMostOneChecked this ->
  exists vs this',
    getCurrentValue this = Returns (vs, this') /\
    vs = value <$> checkedSelectable this /\
    selection this' = Some (short <$> checkedSelectable this) /\
    (List.length vs <= 1)%nat.
Proof.
  intros Hsep Hone. unfold getCurrentValue. munfold.
  fold (checkedEnabled this). rewrite (checkedEnabled_checkedSelectable _ Hsep).
  eexists _, _. split; [done|]. split; [done|]. split; [done|].
  by rewrite length_fmap.
Qed.

Lemma getCurrentValue_single_witness :
  exists vs this',
    getCurrentValue (promptOver [row "A"; set_checked true (row "B"); separatorRow "--"] 0)
    = Returns (vs, this') /\
    (List.length vs <= 1)%nat.
Proof.
  destruct (getCurrentValue_single
              (promptOver [row "A"; set_checked true (row "B"); separatorRow "--"] 0))
    as (vs & this' & H & _ & _ & Hlen).
  - unfold noSeparatorChecked. simpl. repeat constructor; discriminate.
  - unfold atMostOneChecked. simpl. lia.
  - by exists vs, this'.
Defined.

(** X18: on a well-formed list with no separator checked,
    [clearAllChoices] leaves nothing to submit: afterwards no row is both
    checked and not disabled, and [getCurrentValue] returns no value. *)
Theorem clearAllChoices_nothing_to_submit (this : RadioPrompt) :
  Choices.wf (choices (opt this)) -> noSeparatorChecked this ->
  exists this1,
    clearAllChoices this = Returns (tt, this1) /\
    nothingChecked this1 /\
    result_value (getCurrentValue this1) = Returns [].
Proof.
  intros Hwf Hsep.
  destruct (clearAllChoices_none_checked this Hwf)
    as (this1 & H1 & Hnone & _ & _ & _ & _).
  assert (Hsep1 : noSeparatorChecked this1).
  { rewrite clearAllChoices_returns in H1. injection H1 as <-.
    unfold noSeparatorChecked in *. simpl. rewrite Forall_lookup in Hsep.
    apply Forall_lookup. intros j c. rewrite list_lookup_imap.
    destruct (Choices.choices (choices (opt this)) !! j) as [c0|] eqn:Hj;
      [|done]; simpl.
    intros [= <-]. unfold clearedRow. case_bool_decide; [done|]. by apply (Hsep j). }
  assert (Hkept : checkedEnabled this1 = [])
    by (by rewrite checkedEnabled_checkedSelectable).
  exists this1. split; [done|]. split.
  - unfold nothingChecked. apply Forall_forall. intros c Hc.
    destruct (isChecked c) eqn:Hchk; [|by left]. right.
    destruct (truthy (disabled c)) eqn:Hdis; [done|].
    assert (c ∈ checkedEnabled this1) as Hin; [|by rewrite Hkept in Hin; inversion Hin].
    unfold checkedEnabled. apply list_elem_of_In, filter_In.
    split; [by apply list_elem_of_In|]. by rewrite Hchk, Hdis.
  - unfold getCurrentValue. munfold. fold (checkedEnabled this1).
    by rewrite Hkept.
Qed.

Lemma clearAllChoices_nothing_to_submit_witness :
  exists this1,
    clearAllChoices
      (promptOver [set_checked true (row "A"); set_checked true (disabledRow "B")] 0)
    = Returns (tt, this1) /\
    result_value (getCurrentValue this1) = Returns [].
Proof.
  destruct (clearAllChoices_nothing_to_submit
              (promptOver [set_checked true (row "A"); set_checked true (disabledRow "B")] 0))
    as (this1 & H & _ & Hv).
  - apply wf_new.
  - unfold noSeparatorChecked. simpl. repeat constructor; discriminate.
  - by exists this1.
Defined.

(** ** The answers of one session *)

Lemma onLine_delivers this :
  exists ok this',
    onLine this = Returns (ok, this') /\ selection this' <> None /\
    ((ok = false /\ delivered this' = delivered this) \/
     (ok = true /\ exists a, delivered this' = delivered this ++ [a])).
Proof.
  unfold onLine, getCurrentValue. munfold. simpl.
  destruct (validate _ _); simpl.
  - unfold onEnd. munfold. simpl.
    destruct (List.length _ =? 0)%nat; simpl;
      unfold render, renderFrame; munfold; simpl; eexists _, _;
      (split; [reflexivity|]); simpl; (split; [discriminate|]); right;
      (split; [reflexivity|]); eexists;
      rewrite !delivered_add_effect; simpl; by rewrite !app_nil_r.
  - unfold onError, render, renderFrame. munfold. simpl.
    destruct (status this); simpl; eexists _, _;
      (split; [reflexivity|]); simpl; (split; [discriminate|]); left;
      (split; [reflexivity|]); rewrite delivered_add_effect; simpl;
      by rewrite app_nil_r.
  - unfold onError, render, renderFrame. munfold. simpl.
    destruct (status this); simpl; eexists _, _;
      (split; [reflexivity|]); simpl; (split; [discriminate|]); left;
      (split; [reflexivity|]); rewrite delivered_add_effect; simpl;
      by rewrite app_nil_r.
Qed.

Lemma dispatchAll_over es ss : success ss = true -> dispatchAll es ss = Returns ss.
Proof.
  intros Hs. induction es as [|e es IH]; simpl; [done|].
  unfold dispatch. by rewrite Hs.
Qed.

(** X19: from a session that can be rendered and has not succeeded, every
    sequence of events is handled without an error, and what it hands to
    the completion callback is the cancellation sentinel some number of
    times followed by at most one more answer, the one of the submit that succeeded; after that answer
    nothing is delivered. *)
Theorem answers_of_a_session (es : list events.t) (ss : Session) :
  renderable (prompt ss) -> success ss = false ->
  exists ss' n tail,
    dispatchAll es ss = Returns ss' /\
    delivered (prompt ss')
    = delivered (prompt ss) ++ replicate n cancelString ++ tail /\
    (tail = [] \/ exists a, tail = [a] /\ success ss' = true).
Proof.
  revert ss. induction es as [|e es IH]; intros ss Hr Hs; simpl.
  - exists ss, 0%nat, []. simpl. rewrite app_nil_r.
    split; [done|]. split; [done|]. by left.
  - unfold dispatch. rewrite Hs.
    assert (Hkey : forall k (m : M unit), m = press k ->
      exists ss' n tail,
        match run_handler m ss with
        | Returns ss' => dispatchAll es ss'
        | Throws err => Throws err
        end = Returns ss' /\
        delivered (prompt ss')
        = delivered (prompt ss) ++ replicate n cancelString ++ tail /\
        (tail = [] \/ exists a, tail = [a] /\ success ss' = true)).
    { intros k m ->. unfold run_handler.
      destruct (press_returns k _ Hr) as (this1 & -> & Hr1 & Hd1).
      destruct (IH {| prompt := this1; success := success ss |} Hr1 Hs)
        as (ss' & n & tail & Hrun & Hd & Htail).
      cbn [prompt] in Hd. destruct k.
      1-3: exists ss', n, tail; split; [done|]; split; [|done];
           by rewrite Hd, Hd1, app_nil_r.
      exists ss', (S n), tail. split; [done|]. split; [|done].
      rewrite Hd, Hd1, <- app_assoc. done. }
    destruct e.
    + destruct (onLine_delivers (prompt ss)) as (ok & this1 & -> & Hsel & Hd1).
      destruct Hd1 as [[-> Hd1]|[-> [a Hd1]]].
      * destruct (IH {| prompt := this1; success := false |})
          as (ss' & n & tail & Hrun & Hd & Htail); [by intros _|done|].
        exists ss', n, tail. split; [done|]. split; [|done].
        cbn [prompt] in Hd. congruence.
      * rewrite dispatchAll_over by done.
        exists {| prompt := this1; success := true |}, 0%nat, [a].
        split; [done|]. split; [cbn [prompt]; by rewrite Hd1|]. right. by exists a.
    + by apply (Hkey key_up).
    + by apply (Hkey key_down).
    + by apply (Hkey key_space).
    + by apply (Hkey key_backspace).
Qed.

Lemma answers_of_a_session_witness :
  exists ss',
    dispatchAll [events.spaceKey; events.backspaceKey; events.line; events.backspaceKey]
      {| prompt := promptOver [row "A"; row "B"] 0; success := false |}
    = Returns ss' /\
    delivered (prompt ss') = [cancelString; values [VString "A"]].
Proof.
  destruct (answers_of_a_session
              [events.spaceKey; events.backspaceKey; events.line; events.backspaceKey]
              {| prompt := promptOver [row "A"; row "B"] 0; success := false |})
    as (ss' & n & tail & Hrun & _ & _).
  - intros H. discriminate H.
  - reflexivity.
  - exists ss'. split; [exact Hrun|].
    vm_compute in Hrun. injection Hrun as <-. reflexivity.
Defined.

(** ** What a frame is made of *)

Lemma renderChoices_choiceBlock cs p : renderChoices cs p = choiceBlock cs p.
Proof.
  unfold choiceBlock.
  rewrite renderChoices_rows_concat, renderChoices_rows_imap.
  rewrite <- replace_trailing_newline_lines. do 2 f_equal.
  apply list_eq. intros j. rewrite list_lookup_fmap, !list_lookup_imap.
  destruct (Choices.choices cs !! j); [|done]; simpl.
  by rewrite renderedRow_rowLine.
Qed.

Lemma countLines_linesOf (l : list Choice) : forall i ip acc,
  countLines l i ip acc = acc + linesOf (Z.to_nat (ip - i + 1)) l.
Proof.
  induction l as [|c l IH]; intros i ip acc; simpl.
  - destruct (Z.to_nat (ip - i + 1)); simpl; lia.
  - rewrite IH. destruct (Z.ltb_spec ip i) as [Hlt|Hge].
    + replace (Z.to_nat (ip - (i + 1) + 1)) with 0%nat by lia.
      replace (Z.to_nat (ip - i + 1)) with 0%nat by lia.
      destruct l; simpl; lia.
    + replace (Z.to_nat (ip - i + 1)) with (S (Z.to_nat (ip - (i + 1) + 1))) by lia.
      simpl. unfold lineHeight. destruct (isSeparator c); lia.
Qed.

(** What [render(error)] does, in one equation: it throws when the
    session is answered and no selection was assigned, and otherwise hands
    the main block and the bottom line to the screen and changes nothing
    else. *)
Lemma render_frameMessage error this :
  match status this, selection this with
  | answered, None => render error this = Throws TypeError
  | _, _ =>
      render error this
      = Returns (tt, add_effect (screen_render (frameMessage this) (bottomLine error))
                                this)
  end.
Proof.
  unfold render, renderFrame, frameMessage. munfold.
  destruct (status this) eqn:Hst.
  - rewrite renderChoices_choiceBlock, countLines_linesOf.
    unfold focusLine.
    replace (indexPosition (choices (opt this)) (pointer this) - 0 + 1)
      with (indexPosition (choices (opt this)) (pointer this) + 1) by lia.
    simpl. destruct (dontShowHints this), (selection this); done.
  - destruct (selection this); [|done]. simpl.
    by destruct (dontShowHints this).
Qed.

(** C8 (amended): rendering is deterministic in what it reads.  The two
    strings that [render] hands to the screen are the bottom line, made
    of the error message, and the main block, made of the question text,
    the hint line unless the hint flag suppresses it and, while the
    session is active, the page that the paginator cuts for the page size
    out of the joined row lines of the choice list with the pointer, in
    view of the pointed row, or, once it is answered, the finalized
    selection joined by commas.  So two calls with the same error message
    in prompts that agree on the question text, the hint flag, the status
    and, while active, the choice list, the pointer, the page size and the
    paginator or, once answered, the finalized selection hand the same two
    strings to the screen (or both throw, when no selection was ever
    assigned), whatever else differs between the prompts. *)
Theorem render_output_determined (this1 this2 : RadioPrompt)
    (error : option string) :
  getQuestion this1 = getQuestion this2 ->
  dontShowHints this1 = dontShowHints this2 ->
  status this1 = status this2 ->
  (status this1 = answered -> selection this1 = selection this2) ->
  (status this1 = active ->
   choices (opt this1) = choices (opt this2) /\
   pointer this1 = pointer this2 /\
   pageSize (opt this1) = pageSize (opt this2) /\
   paginator this1 = paginator this2) ->
  match status this1, selection this1 with
  | answered, None =>
      render error this1 = Throws TypeError /\
      render error this2 = Throws TypeError
  | _, _ =>
      render error this1
      = Returns (tt, add_effect (screen_render (frameMessage this1) (bottomLine error))
                                this1) /\
      render error this2
      = Returns (tt, add_effect (screen_render (frameMessage this1) (bottomLine error))
                                this2)
  end.
Proof.
  intros Hq Hh Hst Hans Hact.
  pose proof (render_frameMessage error this1) as H1.
  pose proof (render_frameMessage error this2) as H2.
  assert (Hm : frameMessage this2 = frameMessage this1).
  { unfold frameMessage. rewrite <- Hq, <- Hh, <- Hst.
    destruct (status this1).
    - by destruct (Hact eq_refl) as (<- & <- & <- & <-).
    - by rewrite <- (Hans eq_refl). }
  rewrite Hm in H2. rewrite <- Hst in H2.
  destruct (status this1) eqn:Hs1.
  - by destruct (selection this1), (selection this2).
  - rewrite <- (Hans eq_refl) in H2. by destruct (selection this1).
Qed.

Lemma render_output_determined_witness :
  render (Some "Pick a row") (promptOver [disabledRow "A"; row "B"; row "C"] 1)
  = Returns (tt,
      add_effect
        (screen_render
           (frameMessage (promptOver [disabledRow "A"; row "B"; row "C"] 1))
           (bottomLine (Some "Pick a row")))
        (promptOver [disabledRow "A"; row "B"; row "C"] 1)) /\
  render (Some "Pick a row")
    (add_effect cliCursor_hide
       (set_selected "B"
          (set_firstRender true
             (promptOver [disabledRow "A"; row "B"; row "C"] 1))))
  = Returns (tt,
      add_effect
        (screen_render
           (frameMessage (promptOver [disabledRow "A"; row "B"; row "C"] 1))
           (bottomLine (Some "Pick a row")))
        (add_effect cliCursor_hide
           (set_selected "B"
              (set_firstRender true
                 (promptOver [disabledRow "A"; row "B"; row "C"] 1))))).
Proof.
  apply (render_output_determined
           (promptOver [disabledRow "A"; row "B"; row "C"] 1)
           (add_effect cliCursor_hide
              (set_selected "B"
                 (set_firstRender true
                    (promptOver [disabledRow "A"; row "B"; row "C"] 1))))
           (Some "Pick a row")); [reflexivity|reflexivity|reflexivity| |].
  - intros H. discriminate H.
  - intros _. repeat split; reflexivity.
Defined.

(** ** A submit that the validator rejects *)

